(** * xctest_checker: the annotated-expectation line verifier

    A shallow embedding of [xctest_checker/compare.py] (Python 2) and the
    properties of its [compare] function.

    - Python byte strings are [string]; a file is the string of its
      contents, and a file system maps a path to the contents of the file
      stored there, or to nothing when [open] fails.
    - A generator object is a value of [generator]: the generator function
      that created it together with the point at which its body is
      suspended.  [next] resumes it.
    - [map(None, g1, g2)] is Python 2's builtin [map]: it drains both
      generators, padding the shorter one with [None], and returns a list.
    - [re.match] is a parameter of the verifier (Section [Verifier]); a
      reference engine for a fragment of the pattern syntax is given in
      Module [Sre].
    - [build_script.py] is embedded in Module [BuildScript]: its
      subcommands are scripts over a world that the shell changes, with
      the shell, [os.path.exists], [os.path.abspath] and [glob.glob] as
      parameters, and a run shows the lines printed and the commands
      called. *)

From Stdlib Require Import List String Ascii Bool Arith ZArith Lia.
Import ListNotations.
Local Open Scope string_scope.

Set Implicit Arguments.

(* ================================================================= *)
(** ** Strings *)

(** The line terminator, ['\n']. *)
Definition newline : ascii := "010"%char.

(** [s.startswith(p)]. *)
Definition startswith (s p : string) : bool := String.prefix p s.

(** [s[n:]]: the slice from index [n] on; empty when [n] is past the end. *)
Fixpoint slice_from (n : nat) (s : string) : string :=
  match n, s with
  | O, _ => s
  | S n', String _ s' => slice_from n' s'
  | S _, EmptyString => EmptyString
  end.


(** Whether the byte [c] occurs in [s]. *)
Fixpoint occurs (c : ascii) (s : string) : bool :=
  match s with
  | EmptyString => false
  | String d s' => Ascii.eqb d c || occurs c s'
  end.

(* ================================================================= *)
(** ** Files *)

(** The lines that iterating over a file object yields: the contents cut
    after every ['\n'], terminators kept; an unterminated tail is the last
    line. *)
Fixpoint readlines (contents : string) : list string :=
  match contents with
  | EmptyString => []
  | String c rest =>
      if Ascii.eqb c newline then String c EmptyString :: readlines rest
      else match readlines rest with
           | [] => [String c EmptyString]
           | l :: ls => String c l :: ls
           end
  end.

(** A file system: the contents of the file at a path, [None] when the
    path cannot be opened. *)
Definition filesystem := string -> option string.

(* ================================================================= *)
(** ** Exceptions and outcomes *)

Inductive exn : Type :=
| AssertionError (msg : string)
| IOError                        (* [open] failed *)
| ReError.                       (* [re.error]: the pattern does not compile *)

Inductive outcome : Type :=
| Returns
| Raises (e : exn).

(** What a call [re.match(pattern, line)] does. *)
Inductive re_result : Type :=
| MatchObject                    (* a match object, which is truthy *)
| MatchNone                      (* [None] *)
| MatchError.                    (* raises [re.error] *)

(* ================================================================= *)
(** ** [repr] and the diagnostics *)

Definition quote1 : ascii := "'"%char.
Definition quote2 : ascii := Ascii.ascii_of_nat 34.
Definition backslash : ascii := "\"%char.

Definition hex_digit (n : nat) : ascii :=
  match n with
  | 0 => "0" | 1 => "1" | 2 => "2" | 3 => "3" | 4 => "4" | 5 => "5"
  | 6 => "6" | 7 => "7" | 8 => "8" | 9 => "9" | 10 => "a" | 11 => "b"
  | 12 => "c" | 13 => "d" | 14 => "e" | _ => "f"
  end%char.

(** One byte of a string inside [repr], for the chosen quote. *)
Definition repr_char (quote c : ascii) : string :=
  if Ascii.eqb c quote || Ascii.eqb c backslash then
    String backslash (String c EmptyString)
  else if Ascii.eqb c "009"%char then "\t"
  else if Ascii.eqb c newline then "\n"
  else if Ascii.eqb c "013"%char then "\r"
  else
    let n := Ascii.nat_of_ascii c in
    if Nat.ltb n 32 || Nat.leb 127 n then
      String backslash
        (String "x" (String (hex_digit (n / 16))
                       (String (hex_digit (n mod 16)) EmptyString)))
    else String c EmptyString.

Fixpoint repr_body (quote : ascii) (s : string) : string :=
  match s with
  | EmptyString => EmptyString
  | String c s' => repr_char quote c ++ repr_body quote s'
  end.

(** [repr(s)] of a byte string: single quotes, unless [s] holds a single
    quote and no double quote. *)
Definition repr (s : string) : string :=
  let quote := if occurs quote1 s && negb (occurs quote2 s)
               then quote2 else quote1 in
  String quote (repr_body quote s ++ String quote EmptyString).

Definition nl : string := String newline EmptyString.

Definition msg_more_expected : string :=
  "There were more lines expected to appear than there were lines in the actual input.".

Definition msg_more_actual : string :=
  "There were more lines than expected to appear.".

Definition msg_mismatch (actual_line expected_line : string) : string :=
  "Actual line did not match the expected regular expression." ++ nl ++
  "Actual: " ++ repr actual_line ++ nl ++
  "Expected: " ++ repr expected_line ++ nl.

(* ================================================================= *)
(** ** Generators *)

(** The two generator functions of the module. *)
Inductive gen_body : Type :=
| ActualLines (path : string)
| ExpectedLines (path check_prefix : string).

(** Where a generator object stands, with the number of lines it has
    taken from the iterator of its file so far. *)
Inductive gen_state : Type :=
| Created                                 (* body not entered: file not opened *)
| Suspended (nread : nat) (unread : list string)
                                          (* at its [yield], inside the loop *)
| Exhausted (nread : nat).                (* body left: file closed *)

Record generator : Type := Generator { body : gen_body; state : gen_state }.

Definition lines_read (g : generator) : nat :=
  match state g with
  | Created => 0
  | Suspended n _ => n
  | Exhausted n => n
  end.

Definition _actual_lines (path : string) : generator :=
  Generator (ActualLines path) Created.

Definition _expected_lines (path check_prefix : string) : generator :=
  Generator (ExpectedLines path check_prefix) Created.

(** What [next(g)] produces. *)
Inductive next_result : Type :=
| Yield (line : string)
| StopIteration
| NextRaises (e : exn).

(** The loop [for line in f: if line.startswith(check_prefix): yield ...]
    of [_expected_lines], from the lines not yet read up to its next
    [yield] or its end. *)
Fixpoint resume_expected (b : gen_body) (check_prefix : string)
    (nread : nat) (unread : list string) : next_result * generator :=
  match unread with
  | [] => (StopIteration, Generator b (Exhausted nread))
  | line :: rest =>
      if startswith line check_prefix
      then (Yield (slice_from (String.length check_prefix) line),
            Generator b (Suspended (S nread) rest))
      else resume_expected b check_prefix (S nread) rest
  end.

(** The loop [for line in f: yield line] of [_actual_lines]. *)
Definition resume_actual (b : gen_body) (nread : nat) (unread : list string)
    : next_result * generator :=
  match unread with
  | [] => (StopIteration, Generator b (Exhausted nread))
  | line :: rest => (Yield line, Generator b (Suspended (S nread) rest))
  end.

Definition resume (b : gen_body) (nread : nat) (unread : list string)
    : next_result * generator :=
  match b with
  | ActualLines _ => resume_actual b nread unread
  | ExpectedLines _ check_prefix => resume_expected b check_prefix nread unread
  end.

Definition gen_path (b : gen_body) : string :=
  match b with
  | ActualLines path => path
  | ExpectedLines path _ => path
  end.

Section Verifier.

Variable fs : filesystem.

(** [re.match], as called by [compare]: pattern first, then the line.
    [None] where the engine at hand leaves the behaviour undetermined. *)
Variable re_match : string -> string -> option re_result.

(** [next(g)]. *)
Definition next (g : generator) : next_result * generator :=
  match state g with
  | Created =>
      match fs (gen_path (body g)) with
      | None => (NextRaises IOError, Generator (body g) (Exhausted 0))
      | Some contents => resume (body g) 0 (readlines contents)
      end
  | Suspended nread unread => resume (body g) nread unread
  | Exhausted _ => (StopIteration, g)
  end.

(** The result of [map(None, g1, g2)]. *)
Inductive map_result : Type :=
| MapList (pairs : list (option string * option string))
| MapRaises (e : exn)
| MapUnfinished.                (* the loop bound was too small *)

Definition map_cons (p : option string * option string) (r : map_result)
    : map_result :=
  match r with
  | MapList pairs => MapList (p :: pairs)
  | other => other
  end.

Definition item_of (r : next_result) : option string :=
  match r with
  | Yield line => Some line
  | _ => None
  end.

(** The loop of the builtin [map] with [None] as its function: each round
    asks both iterators for an item, [None] standing for an iterator
    that has stopped; the loop ends with the first round in which
    neither gives one.  [rounds] bounds the number of rounds. *)
Fixpoint map_None_loop (rounds : nat) (g1 g2 : generator)
    : map_result * generator * generator :=
  match rounds with
  | O => (MapUnfinished, g1, g2)
  | S rounds' =>
      let '(r1, g1') := next g1 in
      match r1 with
      | NextRaises e => (MapRaises e, g1', g2)
      | _ =>
          let '(r2, g2') := next g2 in
          match r2 with
          | NextRaises e => (MapRaises e, g1', g2')
          | _ =>
              match item_of r1, item_of r2 with
              | None, None => (MapList [], g1', g2')
              | i1, i2 =>
                  let '(r, h1, h2) := map_None_loop rounds' g1' g2' in
                  (map_cons (i1, i2) r, h1, h2)
              end
          end
      end
  end.

(** The number of lines a generator may still read, plus the calls of
    [next] that read none. *)
Definition pending (g : generator) : nat :=
  match state g with
  | Created =>
      match fs (gen_path (body g)) with
      | None => 1
      | Some contents => S (List.length (readlines contents))
      end
  | Suspended _ unread => S (List.length unread)
  | Exhausted _ => 0
  end.

Definition map_None (g1 g2 : generator) : map_result * generator * generator :=
  map_None_loop (S (pending g1 + pending g2)) g1 g2.

(** The body of the [for] loop of [compare], over the list that [map]
    returned.  [None] when [re_match] does not determine a result. *)
Fixpoint check_pairs (pairs : list (option string * option string))
    : option outcome :=
  match pairs with
  | [] => Some Returns
  | (None, _) :: _ => Some (Raises (AssertionError msg_more_expected))
  | (Some _, None) :: _ => Some (Raises (AssertionError msg_more_actual))
  | (Some actual_line, Some expected_line) :: rest =>
      match re_match expected_line actual_line with
      | None => None
      | Some MatchObject => check_pairs rest
      | Some MatchNone =>
          Some (Raises (AssertionError (msg_mismatch actual_line expected_line)))
      | Some MatchError => Some (Raises ReError)
      end
  end.

(** A run of [compare]: its outcome and the two generators as it leaves
    them. *)
Record run : Type := Run {
  result : option outcome;
  actual_gen : generator;
  expected_gen : generator
}.

Definition compare_run (actual expected check_prefix : string) : run :=
  let '(r, g1, g2) :=
    map_None (_actual_lines actual) (_expected_lines expected check_prefix) in
  match r with
  | MapList pairs => Run (check_pairs pairs) g1 g2
  | MapRaises e => Run (Some (Raises e)) g1 g2
  | MapUnfinished => Run None g1 g2
  end.

Definition compare (actual expected check_prefix : string) : option outcome :=
  result (compare_run actual expected check_prefix).

End Verifier.

(** The result of [list(g)]. *)
Inductive drained : Type :=
| Items (items : list string)
| DrainRaises (e : exn)
| DrainUnfinished.                (* the loop bound was too small *)

Definition drained_cons (item : string) (d : drained) : drained :=
  match d with
  | Items items => Items (item :: items)
  | other => other
  end.

(** [list(g)]: [next] until the generator stops. *)
Fixpoint drain_loop (fs : filesystem) (rounds : nat) (g : generator) : drained :=
  match rounds with
  | O => DrainUnfinished
  | S rounds' =>
      match next fs g with
      | (Yield item, g') => drained_cons item (drain_loop fs rounds' g')
      | (StopIteration, _) => Items []
      | (NextRaises e, _) => DrainRaises e
      end
  end.

Definition drain (fs : filesystem) (g : generator) : drained :=
  drain_loop fs (pending fs g) g.

(* ================================================================= *)
(** ** The regular-expression engine *)

Module Sre.

(** Regular expressions over bytes.  [Void] matches nothing; the
    compiler never produces it, derivatives do. *)
Inductive regex : Type :=
| Void
| Eps
| Chr (c : ascii)
| Any                           (* [.]: any byte but ['\n'] *)
| Seq (r1 r2 : regex)
| Alt (r1 r2 : regex)
| Star (r : regex).

(** The words of a regular expression. *)
Inductive matches : regex -> list ascii -> Prop :=
| MEps : matches Eps []
| MChr c : matches (Chr c) [c]
| MAny c : c <> newline -> matches Any [c]
| MSeq r1 r2 w1 w2 :
    matches r1 w1 -> matches r2 w2 -> matches (Seq r1 r2) (w1 ++ w2)
| MAltL r1 r2 w : matches r1 w -> matches (Alt r1 r2) w
| MAltR r1 r2 w : matches r2 w -> matches (Alt r1 r2) w
| MStar0 r : matches (Star r) []
| MStarS r w1 w2 :
    matches r w1 -> matches (Star r) w2 -> matches (Star r) (w1 ++ w2).

Fixpoint nullable (r : regex) : bool :=
  match r with
  | Void | Chr _ | Any => false
  | Eps | Star _ => true
  | Seq r1 r2 => nullable r1 && nullable r2
  | Alt r1 r2 => nullable r1 || nullable r2
  end.

(** The derivative of [r] by the byte [c]: what may follow [c]. *)
Fixpoint deriv (c : ascii) (r : regex) : regex :=
  match r with
  | Void | Eps => Void
  | Chr d => if Ascii.eqb c d then Eps else Void
  | Any => if Ascii.eqb c newline then Void else Eps
  | Seq r1 r2 =>
      if nullable r1 then Alt (Seq (deriv c r1) r2) (deriv c r2)
      else Seq (deriv c r1) r2
  | Alt r1 r2 => Alt (deriv c r1) (deriv c r2)
  | Star r1 => Seq (deriv c r1) (Star r1)
  end.

(** Whether [r] matches at position zero of [w]: some prefix of [w],
    read from its first byte, is a word of [r]. *)
Fixpoint prefix_match (r : regex) (w : list ascii) : bool :=
  nullable r ||
  match w with
  | [] => false
  | c :: w' => prefix_match (deriv c r) w'
  end.

(** *** Compiling a pattern *)

Inductive token : Type :=
| TLiteral                      (* an ordinary byte *)
| TDot | TBackslash | TOpen | TClose | TBar
| TStar | TPlus | TQuestion
| TOther.                       (* [[], [{], [^], [$] *)

Definition classify (c : ascii) : token :=
  match c with
  | "."%char => TDot
  | "\"%char => TBackslash
  | "("%char => TOpen
  | ")"%char => TClose
  | "|"%char => TBar
  | "*"%char => TStar
  | "+"%char => TPlus
  | "?"%char => TQuestion
  | "["%char | "{"%char | "^"%char | "$"%char => TOther
  | _ => TLiteral
  end.

(** ASCII letters and digits: after a backslash they make the escapes
    with a meaning of their own. *)
Definition is_alnum (c : ascii) : bool :=
  let n := Ascii.nat_of_ascii c in
  (Nat.leb 48 n && Nat.leb n 57) ||
  (Nat.leb 65 n && Nat.leb n 90) ||
  (Nat.leb 97 n && Nat.leb n 122).

(** The pattern being read at one nesting depth: the branches closed by
    a [|] so far and the items of the current branch, both latest first,
    and whether the latest item is a repetition. *)
Record frame : Type := Frame {
  branches : list regex;
  items : list regex;
  repeated : bool
}.

Definition empty_frame : frame := Frame [] [] false.

Definition sequence (rev_items : list regex) : regex :=
  fold_left (fun acc r => Seq r acc) rev_items Eps.

Definition alternation (rev_branches : list regex) (last : regex) : regex :=
  fold_left (fun acc r => Alt r acc) rev_branches last.

Definition close (f : frame) : regex :=
  alternation (branches f) (sequence (items f)).

Definition push (r : regex) (f : frame) : frame :=
  Frame (branches f) (r :: items f) false.

Definition next_branch (f : frame) : frame :=
  Frame (sequence (items f) :: branches f) [] false.

Definition quantify (t : token) (r : regex) : regex :=
  match t with
  | TStar => Star r
  | TPlus => Seq r (Star r)
  | _ => Alt r Eps
  end.

Definition starts_with_question (p : list ascii) : bool :=
  match p with
  | c :: _ => Ascii.eqb c "?"%char
  | [] => false
  end.

(** The limit of the engine: 99 groups besides the whole match. *)
Definition max_groups : nat := 99.

Inductive compiled : Type :=
| Compiled (r : regex)
| Invalid                       (* [re.error] *)
| Unmodelled.                   (* pattern syntax outside the fragment *)

(** The parser, one pass from left to right.  [stack] holds the frames
    of the groups that are open around the current one, innermost
    first; [groups] counts the groups opened so far. *)
Fixpoint parse (groups : nat) (stack : list frame) (top : frame)
    (p : list ascii) {struct p} : compiled :=
  match p with
  | [] =>
      match stack with
      | [] => Compiled (close top)
      | _ :: _ => Invalid                    (* unbalanced parenthesis *)
      end
  | c :: p' =>
      match classify c with
      | TLiteral => parse groups stack (push (Chr c) top) p'
      | TDot => parse groups stack (push Any top) p'
      | TBackslash =>
          match p' with
          | [] => Invalid                    (* bogus escape (end of line) *)
          | d :: p'' =>
              if is_alnum d then Unmodelled
              else parse groups stack (push (Chr d) top) p''
          end
      | TOpen =>
          if starts_with_question p' then Unmodelled   (* extension notation *)
          else if Nat.ltb groups max_groups
          then parse (S groups) (top :: stack) empty_frame p'
          else Unmodelled
      | TClose =>
          match stack with
          | [] => Invalid                    (* unbalanced parenthesis *)
          | parent :: stack' =>
              parse groups stack' (push (close top) parent) p'
          end
      | TBar => parse groups stack (next_branch top) p'
      | TStar | TPlus | TQuestion =>
          match items top with
          | [] => Invalid                    (* nothing to repeat *)
          | r :: rest =>
              if repeated top then Invalid   (* multiple repeat *)
              else if nullable r then Unmodelled
              else
                let top' :=
                  Frame (branches top) (quantify (classify c) r :: rest) true in
                match p' with
                | d :: p'' =>
                    if Ascii.eqb d "?"%char
                    then parse groups stack top' p''      (* non-greedy *)
                    else parse groups stack top' p'
                | [] => parse groups stack top' p'
                end
          end
      | TOther => Unmodelled
      end
  end.

Definition compile (pattern : string) : compiled :=
  parse 0 [] empty_frame (list_ascii_of_string pattern).

(** Modelled from the spec: the regular-expression engine behind
    [re.match], which belongs to Python's standard library and not to the
    sources of the repository.  The expected text is interpreted as a
    regular expression and the line matches when a match starts at its
    first byte.  The pattern syntax covered is: ordinary bytes, [.], a
    backslash before a byte that is no letter or digit, groups [(...)],
    [|], and [*], [+], [?] (also in their non-greedy forms) after an item
    that cannot match the empty string, with at most [max_groups] groups.
    On every other pattern the behaviour is left undetermined ([None]). *)
Definition re_match (pattern line : string) : option re_result :=
  match compile pattern with
  | Unmodelled => None
  | Invalid => Some MatchError
  | Compiled r =>
      Some (if prefix_match r (list_ascii_of_string line)
            then MatchObject else MatchNone)
  end.

(** *** Shapes of patterns and of regular expressions *)






End Sre.

(* ================================================================= *)
(** ** The pairing, as lists *)

(** The annotated lines of an expectations file, those that start with
    the prefix, and its patterns: each annotated line without the prefix. *)
Definition annotated (check_prefix : string) (lines : list string)
    : list string :=
  filter (fun line => startswith line check_prefix) lines.

Definition expected_patterns (check_prefix : string) (lines : list string)
    : list string :=
  map (slice_from (String.length check_prefix)) (annotated check_prefix lines).

(** Two lists paired position by position, the shorter one padded with
    [None]. *)
Fixpoint zip_longest (xs ys : list string)
    : list (option string * option string) :=
  match xs, ys with
  | x :: xs', y :: ys' => (Some x, Some y) :: zip_longest xs' ys'
  | _, [] => map (fun x => (Some x, None)) xs
  | [], _ => map (fun y => (None, Some y)) ys
  end.

(** The pattern [p] matches the line [a] at position zero. *)
Definition passes (re_match : string -> string -> option re_result)
    (a p : string) : Prop :=
  re_match p a = Some MatchObject.


(* ================================================================= *)
(** ** Generators that have been started *)

(** The lines a started generator has not read yet. *)
Definition remaining (g : generator) : list string :=
  match state g with
  | Suspended _ unread => unread
  | _ => []
  end.

(** The items a started generator will still yield. *)
Definition yields (g : generator) : list string :=
  match body g with
  | ActualLines _ => remaining g
  | ExpectedLines _ check_prefix => expected_patterns check_prefix (remaining g)
  end.

Definition started (g : generator) : Prop := state g <> Created.

(** The number of lines of the file of a started generator. *)
Definition file_length (g : generator) : nat :=
  lines_read g + List.length (remaining g).

(* ================================================================= *)
(** ** Reading [repr] back *)

Definition hex_value (c : ascii) : nat :=
  match c with
  | "0" => 0 | "1" => 1 | "2" => 2 | "3" => 3 | "4" => 4 | "5" => 5
  | "6" => 6 | "7" => 7 | "8" => 8 | "9" => 9 | "a" => 10 | "b" => 11
  | "c" => 12 | "d" => 13 | "e" => 14 | _ => 15
  end%char.

(** The inverse of the escapes that [repr] writes. *)
Fixpoint unescape (s : string) : string :=
  match s with
  | EmptyString => EmptyString
  | String c rest =>
      if Ascii.eqb c backslash then
        match rest with
        | EmptyString => EmptyString
        | String d rest' =>
            if Ascii.eqb d "t" then String "009" (unescape rest')
            else if Ascii.eqb d "n" then String newline (unescape rest')
            else if Ascii.eqb d "r" then String "013" (unescape rest')
            else if Ascii.eqb d "x" then
              match rest' with
              | String h1 (String h2 rest'') =>
                  String (Ascii.ascii_of_nat (16 * hex_value h1 + hex_value h2))
                         (unescape rest'')
              | _ => EmptyString
              end
            else String d (unescape rest')
        end
      else String c (unescape rest)
  end.

Definition is_quote (q : ascii) : Prop := q = quote1 \/ q = quote2.

(* ================================================================= *)
(** ** Files to run [compare] on *)

Fixpoint fs_of (files : list (string * string)) : filesystem :=
  fun path =>
    match files with
    | [] => None
    | (name, contents) :: rest =>
        if String.eqb name path then Some contents else fs_of rest path
    end.

(** The text of a file, from its lines without their terminators. *)
Definition text (lines : list string) : string :=
  String.concat "" (map (fun l => l ++ nl) lines).

Definition fs_pass : filesystem :=
  fs_of [("actual.txt", text ["hello"; "world"]);
         ("expected.swift",
          text ["// CHECK: hel+o"; "print(1)"; "// CHECK: w.rld"])].

Definition fs_mismatch : filesystem :=
  fs_of [("actual.txt", text ["hello"; "foo"; "baz"]);
         ("expected.swift", text ["# hello"; "# bar"; "# qux"])].

Definition fs_short : filesystem :=
  fs_of [("actual.txt", text ["hello"]);
         ("expected.swift", text ["# hello"; "# extra"])].

Definition fs_long : filesystem :=
  fs_of [("actual.txt", text ["hello"; "goodbye"]);
         ("expected.swift", text ["# hello"])].

Definition fs_long_mismatch : filesystem :=
  fs_of [("actual.txt", text ["foo"; "x"]);
         ("expected.swift", text ["# bar"])].

Definition fs_first_mismatch : filesystem :=
  fs_of [("actual.txt", text ["foo"; "x"; "y"]);
         ("expected.swift", text ["# bar"; "# x"; "# y"])].


(** The annotated line is the prefix followed by its terminator. *)
Definition fs_prefix_line : filesystem :=
  fs_of [("actual.txt", text ["abc"]);
         ("expected.swift", text ["#"])].

(** The expectations end without a newline, on a line that is the prefix
    and nothing more. *)
Definition fs_bare_prefix : filesystem :=
  fs_of [("actual.txt", text ["a"; "anything"]);
         ("expected.swift", text ["# a"] ++ "# ")].


(** The same expectations, with the terminator. *)
Definition fs_trailing_terminated : filesystem :=
  fs_of [("actual.txt", text ["hello, world"]);
         ("expected.swift", text ["# hel+o"])].



(* ================================================================= *)
(** ** Reading the outcome of the walk *)

(** Every pair that is present passes. *)
Definition all_pass (re_match : string -> string -> option re_result)
    (xs ys : list string) : Prop :=
  forall i x y, nth_error xs i = Some x -> nth_error ys i = Some y ->
                passes re_match x y.

(** Position [i] holds the first pair that does not pass, and [re.match]
    gives [r] on it. *)
Definition first_failure (re_match : string -> string -> option re_result)
    (xs ys : list string) (i : nat) (x y : string) (r : re_result) : Prop :=
  nth_error xs i = Some x /\ nth_error ys i = Some y /\
  re_match y x = Some r /\
  forall j x' y', j < i -> nth_error xs j = Some x' ->
                  nth_error ys j = Some y' -> passes re_match x' y'.

(** An engine that answers on every pattern: it reads the pattern as
    plain text. *)
Definition plain_match (pattern line : string) : option re_result :=
  Some (if startswith line pattern then MatchObject else MatchNone).

Definition fs_bad_pattern : filesystem :=
  fs_of [("actual.txt", text ["hello"; "x"]);
         ("expected.swift", text ["# hello"; "# (x"])].

Definition fs_stripped : filesystem :=
  fs_of [("actual.txt", text ["hello"; "world"]);
         ("expected.swift",
          text ["// CHECK: hel+o"; "print(1)"; "// CHECK: w.rld"]);
         ("stripped.swift", text ["// CHECK: hel+o"; "// CHECK: w.rld"])].

Definition fs_empty_actual : filesystem :=
  fs_of [("actual.txt", EmptyString);
         ("expected.swift", text ["# (x"])].

(* ================================================================= *)
(** ** build_script.py *)

Module BuildScript.

(** *** Paths *)

(** [s.endswith(c)] for a single byte [c]. *)
Fixpoint endswith_char (s : string) (c : ascii) : bool :=
  match s with
  | EmptyString => false
  | String d EmptyString => Ascii.eqb d c
  | String _ s' => endswith_char s' c
  end.

(** One round of the loop of [os.path.join], as [posixpath] of the
    standard library has it: a component that starts with a slash
    replaces the path, any other is appended, after a slash unless the
    path is empty or ends with one. *)
Definition join_step (path b : string) : string :=
  if startswith b "/" then b
  else if String.eqb path EmptyString || endswith_char path "/" then path ++ b
  else path ++ "/" ++ b.

(** [os.path.join(a, *p)]. *)
Definition os_path_join (a : string) (p : list string) : string :=
  fold_left join_step p a.

Definition _core_foundation_build_dir (foundation_build_dir : string) : string :=
  os_path_join foundation_build_dir ["usr"; "lib"; "swift"].

(** *** The arguments *)

(** The words that keep [main] from inserting the default subcommand. *)
Definition known_words : list string :=
  ["build"; "test"; "install"; "-h"; "--help"].

(** [any([a in [...] for a in args])]. *)
Definition names_subcommand (args : list string) : bool :=
  existsb (fun a => existsb (String.eqb a) known_words) args.

(** The argument list that [main] hands to the parser. *)
Definition main_arguments (args : list string) : list string :=
  if names_subcommand args then args else "build" :: args.

(** The attributes of the parsed arguments that the subcommands read.  An
    option that was not given and has no default is [None]. *)
Module BuildArgs.
Record t : Type := Make {
  swiftc : string;
  build_dir : string;
  foundation_build_dir : string;
  module_path : option string;
  lib_path : option string;
  build_style : string;
  test : bool
}.
End BuildArgs.

Module TestArgs.
Record t : Type := Make {
  build_dir : string;
  swiftc : string;
  lit : string;
  foundation_build_dir : string
}.
End TestArgs.

Module InstallArgs.
Record t : Type := Make {
  build_dir : string;
  module_install_path : option string;
  library_install_path : option string
}.
End InstallArgs.

(** *** Scripts *)

(** What a run of the script shows: the lines it prints and the commands
    it hands to the shell, each with its exit status. *)
Inductive event : Type :=
| Printed (line : string)
| Called (command : string) (status : Z).

Inductive failure : Type :=
| CalledProcessError (returncode : Z) (cmd : string)
| IOError (msg : string)
| AttributeError                 (* an attribute of [None] *)
| OtherError (name : string).    (* raised by code that is not modelled *)

Definition dq : string := String quote2 EmptyString.

(** The message of the [IOError] of [_test]. *)
Definition lit_not_found (lit_path : string) : string :=
  "Could not find lit tester tool at path: " ++ dq ++ lit_path ++ dq ++
  ". This tool is requred to run the test suite. Unless you specified a " ++
  "custom path to the tool using the " ++ dq ++ "--lit" ++ dq ++
  " option, the lit tool will be found in the LLVM source tree, which is " ++
  "expected to be checked out in the same directory as " ++
  "swift-corelibs-xctest. If you do not have LLVM checked out at this " ++
  "path, you may follow the instructions for " ++ dq ++
  "Getting Sources for Swift and Related Projects" ++ dq ++
  " from the Swift project README in order to fix this error.".

Section Script.

(** The world outside the script: the file system and whatever else the
    commands change. *)
Variable World : Type.

(** [/bin/sh -c command]: its exit status and the world it leaves. *)
Variable sh : string -> World -> Z * World.

(** [os.path.exists], [os.path.abspath] for the working directory of the
    script, and [glob.glob]. *)
Variable path_exists : World -> string -> bool.
Variable abspath : string -> string.
Variable glob : World -> string -> list string.

Variable SOURCE_DIR : string.

(** A piece of the script: from a world to a value or an exception, the
    world it leaves and the events in between. *)
Definition script (A : Type) : Type :=
  World -> (A + failure) * World * list event.

Definition ret (A : Type) (a : A) : script A := fun w => (inl a, w, []).

Definition raise (A : Type) (e : failure) : script A := fun w => (inr e, w, []).

Definition bind (A B : Type) (c : script A) (k : A -> script B) : script B :=
  fun w =>
    match c w with
    | (inl a, w1, t1) =>
        let '(r, w2, t2) := k a w1 in (r, w2, (t1 ++ t2)%list)
    | (inr e, w1, t1) => (inr e, w1, t1)
    end.

Notation "x <- c ;; k" := (bind c (fun x => k))
  (at level 61, c at next level, right associativity).
Notation "c ;; k" := (bind c (fun _ => k))
  (at level 61, right associativity).

Definition note (msg : string) : script unit :=
  fun w => (inl tt, w, [Printed ("xctest-build: " ++ msg)]).

(** [subprocess.check_call(command, shell=True)]. *)
Definition check_call (command : string) : script unit :=
  fun w =>
    let '(status, w') := sh command w in
    (if Z.eqb status 0 then inl tt
     else inr (CalledProcessError status command),
     w', [Called command status]).

Definition run (command : string) : script unit :=
  note command ;; check_call command.

Definition _mkdirp (path : string) : script unit :=
  fun w =>
    if negb (path_exists w path) then run ("mkdir -p " ++ path) w
    else ret tt w.

(** [os.path.abspath] of an attribute that may be [None]: Python 2 asks
    the path whether it starts with a slash, which [None] cannot
    answer. *)
Definition os_path_abspath (path : option string) : script string :=
  match path with
  | Some p => ret (abspath p)
  | None => raise string AttributeError
  end.

Definition os_glob (pattern : string) : script (list string) :=
  fun w => (inl (glob w pattern), w, []).

Definition compile_command (swiftc style_options build_dir
    foundation_build_dir core_foundation_build_dir source_paths : string)
    : string :=
  swiftc ++ " -c " ++ style_options ++ " -emit-object -emit-module " ++
  "-module-name XCTest -module-link-name XCTest -parse-as-library " ++
  "-emit-module-path " ++ build_dir ++ "/XCTest.swiftmodule " ++
  "-force-single-frontend-invocation " ++
  "-I " ++ foundation_build_dir ++ " -I " ++ core_foundation_build_dir ++ " " ++
  source_paths ++ " -o " ++ build_dir ++ "/XCTest.o".

Definition link_command (swiftc build_dir foundation_build_dir : string)
    : string :=
  swiftc ++ " -emit-library " ++ build_dir ++ "/XCTest.o " ++
  "-L " ++ foundation_build_dir ++
  " -lswiftGlibc -lswiftCore -lFoundation -lm " ++
  "-o " ++ build_dir ++ "/libXCTest.so".

(** [_build]; [main] is the entry point it calls back for the tests and
    the installation. *)
Definition _build (main : list string -> script unit) (args : BuildArgs.t)
    : script unit :=
  let swiftc := abspath (BuildArgs.swiftc args) in
  let build_dir := abspath (BuildArgs.build_dir args) in
  let foundation_build_dir := abspath (BuildArgs.foundation_build_dir args) in
  let core_foundation_build_dir :=
    _core_foundation_build_dir foundation_build_dir in
  _mkdirp build_dir ;;
  sourcePaths <- os_glob (os_path_join SOURCE_DIR
                            ["Sources"; "XCTest"; "*.swift"]) ;;
  let style_options :=
    if String.eqb (BuildArgs.build_style args) "debug" then "-g" else "-O" in
  run (compile_command swiftc style_options build_dir foundation_build_dir
         core_foundation_build_dir (String.concat " " sourcePaths)) ;;
  run (link_command swiftc build_dir foundation_build_dir) ;;
  (if BuildArgs.test args
   then main ["test"; "--swiftc"; swiftc;
              "--foundation-build-dir"; foundation_build_dir; build_dir]
   else ret tt) ;;
  match BuildArgs.module_path args, BuildArgs.lib_path args with
  | Some module_path, Some lib_path =>
      main ["install"; build_dir;
            "--module-install-path"; module_path;
            "--library-install-path"; lib_path]
  | _, _ => ret tt
  end ;;
  note "Done.".

Definition test_command (swiftc built_products_dir foundation_build_dir
    core_foundation_build_dir lit_path lit_flags tests_path : string) : string :=
  "SWIFT_EXEC=" ++ swiftc ++ " " ++
  "BUILT_PRODUCTS_DIR=" ++ built_products_dir ++ " " ++
  "FOUNDATION_BUILT_PRODUCTS_DIR=" ++ foundation_build_dir ++ " " ++
  "CORE_FOUNDATION_BUILT_PRODUCTS_DIR=" ++ core_foundation_build_dir ++ " " ++
  lit_path ++ " " ++ lit_flags ++ " " ++ tests_path.

Definition _test (args : TestArgs.t) : script unit :=
  let lit_path := abspath (TestArgs.lit args) in
  fun w =>
    if negb (path_exists w lit_path)
    then raise unit (IOError (lit_not_found lit_path)) w
    else
      let lit_flags := "-sv --no-progress-bar" in
      let tests_path := os_path_join SOURCE_DIR ["Tests"; "Functional"] in
      let core_foundation_build_dir :=
        _core_foundation_build_dir (TestArgs.foundation_build_dir args) in
      run (test_command (TestArgs.swiftc args) (TestArgs.build_dir args)
             (TestArgs.foundation_build_dir args) core_foundation_build_dir
             lit_path lit_flags tests_path) w.

Definition _install (args : InstallArgs.t) : script unit :=
  let build_dir := abspath (InstallArgs.build_dir args) in
  module_install_path <-
    os_path_abspath (InstallArgs.module_install_path args) ;;
  library_install_path <-
    os_path_abspath (InstallArgs.library_install_path args) ;;
  _mkdirp module_install_path ;;
  _mkdirp library_install_path ;;
  let xctest_so := "libXCTest.so" in
  run ("cp " ++ os_path_join build_dir [xctest_so] ++ " " ++
       os_path_join library_install_path [xctest_so]) ;;
  let xctest_swiftmodule := "XCTest.swiftmodule" in
  run ("cp " ++ os_path_join build_dir [xctest_swiftmodule] ++ " " ++
       os_path_join module_install_path [xctest_swiftmodule]) ;;
  let xctest_swiftdoc := "XCTest.swiftdoc" in
  run ("cp " ++ os_path_join build_dir [xctest_swiftdoc] ++ " " ++
       os_path_join module_install_path [xctest_swiftdoc]).

End Script.

(** *** Reading a trace *)

(** The result and the trace of a run. *)
Definition result_of (A World : Type)
    (x : (A + failure) * World * list event) : A + failure :=
  fst (fst x).

Definition world_of (A World : Type)
    (x : (A + failure) * World * list event) : World :=
  snd (fst x).

Definition trace_of (A World : Type)
    (x : (A + failure) * World * list event) : list event :=
  snd x.

(** The commands of a trace, in order. *)
Fixpoint commands (t : list event) : list string :=
  match t with
  | [] => []
  | Printed _ :: t' => commands t'
  | Called c _ :: t' => c :: commands t'
  end.

(** Every command of the trace exited with status 0. *)
Definition all_succeeded (t : list event) : Prop :=
  forall c status, In (Called c status) t -> status = 0%Z.

(** The events of a [run] of [c] that exits with [status]. *)
Definition run_events (c : string) (status : Z) : list event :=
  [Printed ("xctest-build: " ++ c); Called c status].

(** The trace is made of printed lines and [run]s: every command comes
    right after the line that announces it. *)
Inductive announced : list event -> Prop :=
| AnnouncedNil : announced []
| AnnouncedPrinted line t : announced t -> announced (Printed line :: t)
| AnnouncedRun c status t :
    announced t -> announced (run_events c status ++ t).

(** A result fits its trace when the commands before the last event all
    succeeded, and the result is the [CalledProcessError] of a command
    exactly when that command is the last event and did not succeed. *)
Definition fail_fast (A : Type) (r : A + failure) (t : list event) : Prop :=
  match r with
  | inr (CalledProcessError status c) =>
      exists t0, t = (t0 ++ [Called c status])%list /\ status <> 0%Z /\
                 all_succeeded t0
  | _ => all_succeeded t
  end.

(** A piece of script whose every run stops at the first command that
    fails, and one whose every run announces its commands. *)
Definition fails_fast (A World : Type) (s : script World A) : Prop :=
  forall w, fail_fast (result_of (s w)) (trace_of (s w)).

Definition announces (A World : Type) (s : script World A) : Prop :=
  forall w, announced (trace_of (s w)).

(** A world for the examples: the directories that exist; [mkdir -p]
    with a single word creates one, [false] fails, every other command
    succeeds and changes nothing. *)
Definition toy_sh (command : string) (dirs : list string)
    : Z * list string :=
  if startswith command "mkdir -p "
  then (0%Z, slice_from 9 command :: dirs)
  else if String.eqb command "false" then (1%Z, dirs)
  else (0%Z, dirs).

Definition toy_exists (dirs : list string) (path : string) : bool :=
  existsb (String.eqb path) dirs.

Definition toy_abspath (path : string) : string :=
  if startswith path "/" then path else os_path_join "/work" [path].

Definition toy_glob (dirs : list string) (pattern : string) : list string :=
  ["/src/Sources/XCTest/XCTest.swift"].

Definition toy_install_args : InstallArgs.t :=
  InstallArgs.Make "/out" (Some "/m") (Some "/l").

Definition toy_build_args : BuildArgs.t :=
  BuildArgs.Make "/bin/swiftc" "out" "/f" None (Some "/l") "release" false.

(** An entry point that does nothing. *)
Definition toy_main (args : list string) : script (list string) unit :=
  @ret (list string) unit tt.

(** An entry point that fails. *)
Definition toy_main_fails (args : list string) : script (list string) unit :=
  @raise (list string) unit (OtherError "SystemExit").

End BuildScript.

(* ================================================================= *)
(** ** Facts about strings and lines *)

Lemma startswith_app (p r : string) : startswith (p ++ r) p = true.
Proof.
  unfold startswith. induction p as [|c p IH]; simpl.
  - destruct r; reflexivity.
  - destruct (ascii_dec c c) as [_|n]; [exact IH | contradiction].
Qed.

Lemma startswith_split (s p : string) :
  startswith s p = true -> s = p ++ slice_from (String.length p) s.
Proof.
  unfold startswith. revert s. induction p as [|c p IH]; intros s H; simpl.
  - reflexivity.
  - destruct s as [|d s]; simpl in H; [discriminate|].
    destruct (ascii_dec c d) as [->|n]; [|discriminate].
    simpl. f_equal. apply IH. exact H.
Qed.

Lemma slice_from_app (p r : string) : slice_from (String.length p) (p ++ r) = r.
Proof. induction p as [|c p IH]; simpl; [destruct r; reflexivity | exact IH]. Qed.

Lemma startswith_iff (s p : string) :
  startswith s p = true <-> exists r, s = p ++ r.
Proof.
  split.
  - intros H. eexists. apply startswith_split. exact H.
  - intros [r ->]. apply startswith_app.
Qed.

Lemma startswith_empty (s : string) : startswith s "" = true.
Proof. destruct s; reflexivity. Qed.



Lemma readlines_cons_inv (c : ascii) (s : string) :
  (c = newline /\ readlines (String c s) = nl :: readlines s) \/
  (c <> newline /\ readlines s = [] /\
     readlines (String c s) = [String c ""]) \/
  (c <> newline /\ exists l ls, readlines s = l :: ls /\
     readlines (String c s) = String c l :: ls).
Proof.
  simpl. destruct (Ascii.eqb_spec c newline) as [->|n].
  - left. split; reflexivity.
  - right. destruct (readlines s) as [|l ls].
    + left. repeat split; assumption.
    + right. split; [assumption|]. exists l, ls. split; reflexivity.
Qed.

Lemma readlines_concat (s : string) : String.concat "" (readlines s) = s.
Proof.
  induction s as [|c s IH]; [reflexivity|].
  destruct (readlines_cons_inv c s) as [[-> E]|[[n [E0 E]]|[n [l [ls [E0 E]]]]]];
    rewrite E; clear E.
  - simpl. destruct (readlines s) as [|l ls] eqn:El.
    + simpl in IH. subst s. reflexivity.
    + simpl. f_equal. exact IH.
  - rewrite E0 in IH. simpl in IH. subst s. reflexivity.
  - rewrite E0 in IH. simpl in IH |- *. destruct ls; subst s; reflexivity.
Qed.



Lemma readlines_nil (s : string) : readlines s = [] -> s = "".
Proof. intros H. rewrite <- (readlines_concat s), H. reflexivity. Qed.


Lemma append_empty_r (s : string) : s ++ "" = s.
Proof. induction s as [|c s IH]; simpl; [reflexivity | rewrite IH; reflexivity]. Qed.

Lemma slice_from_self (s : string) : slice_from (String.length s) s = "".
Proof. rewrite <- (append_empty_r s) at 2. apply slice_from_app. Qed.



Lemma occurs_append (c : ascii) (s t : string) :
  occurs c (s ++ t) = occurs c s || occurs c t.
Proof.
  induction s as [|d s IH]; simpl; [reflexivity|].
  rewrite IH. apply orb_assoc.
Qed.


Lemma append_assoc (s t u : string) : (s ++ t) ++ u = s ++ (t ++ u).
Proof. induction s as [|c s IH]; simpl; [reflexivity | rewrite IH; reflexivity]. Qed.

Lemma append_char_inj (s t : string) (c : ascii) :
  s ++ String c EmptyString = t ++ String c EmptyString -> s = t.
Proof.
  revert t. induction s as [|a s IH]; intros [|b t] H; simpl in H.
  - reflexivity.
  - injection H as _ H. destruct t; discriminate.
  - injection H as _ H. destruct s; discriminate.
  - injection H as -> H. f_equal. apply IH. exact H.
Qed.

Lemma append_inj (s x y : string) : s ++ x = s ++ y -> x = y.
Proof.
  induction s as [|c s IH]; simpl; intros H; [exact H|].
  injection H as H. apply IH. exact H.
Qed.

(** Two texts cut at their first newline. *)
Lemma split_at_newline (x x' y y' : string) :
  occurs newline x = false -> occurs newline x' = false ->
  x ++ String newline y = x' ++ String newline y' -> x = x' /\ y = y'.
Proof.
  revert x'. induction x as [|c x IH]; intros [|c' x'] Hx Hx' H;
    simpl in Hx, Hx', H.
  - injection H as ->. split; reflexivity.
  - injection H as <- _. rewrite Ascii.eqb_refl in Hx'. discriminate.
  - injection H as -> _. rewrite Ascii.eqb_refl in Hx. discriminate.
  - injection H as -> H. apply orb_false_elim in Hx, Hx'.
    destruct (IH x' (proj2 Hx) (proj2 Hx') H) as [-> ->]. split; reflexivity.
Qed.

(* ================================================================= *)
(** ** Facts about the generators and [map] *)

Lemma zip_longest_nil_l (ys : list string) :
  zip_longest [] ys = map (fun y => (None, Some y)) ys.
Proof. destruct ys; reflexivity. Qed.

Lemma zip_longest_nil_r (xs : list string) :
  zip_longest xs [] = map (fun x => (Some x, None)) xs.
Proof. destruct xs; reflexivity. Qed.

Lemma resume_expected_stop (b : gen_body) (pre : string) (n : nat)
    (u : list string) :
  expected_patterns pre u = [] ->
  resume_expected b pre n u
  = (StopIteration, Generator b (Exhausted (n + List.length u))).
Proof.
  revert n. induction u as [|l u IH]; intros n H; simpl.
  - rewrite Nat.add_0_r. reflexivity.
  - unfold expected_patterns, annotated in H. simpl in H.
    destruct (startswith l pre); [discriminate|].
    rewrite Nat.add_succ_r. exact (IH (S n) H).
Qed.

Lemma resume_expected_yield (b : gen_body) (pre : string) (n : nat)
    (u : list string) (p : string) (ps : list string) :
  expected_patterns pre u = p :: ps ->
  exists n' u',
    resume_expected b pre n u = (Yield p, Generator b (Suspended n' u')) /\
    expected_patterns pre u' = ps /\
    n' + List.length u' = n + List.length u /\
    List.length u' < List.length u.
Proof.
  revert n. induction u as [|l u IH]; intros n H; [discriminate|].
  unfold expected_patterns, annotated in H. simpl in H |- *.
  destruct (startswith l pre).
  - simpl in H. injection H as <- <-. exists (S n), u.
    repeat split; simpl; lia.
  - destruct (IH (S n) H) as [n' [u' [E [Hp [Hn Hl]]]]].
    exists n', u'. repeat split; try assumption; simpl; lia.
Qed.

Lemma remaining_exhausted (b : gen_body) (n : nat) :
  remaining (Generator b (Exhausted n)) = [].
Proof. reflexivity. Qed.

Lemma yields_exhausted (b : gen_body) (n : nat) :
  yields (Generator b (Exhausted n)) = [].
Proof. destruct b; reflexivity. Qed.

Lemma file_length_exhausted (b : gen_body) (n : nat) :
  file_length (Generator b (Exhausted n)) = n.
Proof. unfold file_length. simpl. apply Nat.add_0_r. Qed.

Section GeneratorFacts.

Variable fs : filesystem.

(** What [next] does to a started generator, by the items it has left. *)
Lemma next_started (g : generator) :
  started g ->
  match yields g with
  | [] =>
      next fs g = (StopIteration, Generator (body g) (Exhausted (file_length g)))
  | y :: ys =>
      exists g',
        next fs g = (Yield y, g') /\ body g' = body g /\ started g' /\
        yields g' = ys /\ file_length g' = file_length g /\
        List.length (remaining g') < List.length (remaining g)
  end.
Proof.
  destruct g as [b [|n u|n]]; unfold started, yields, remaining, file_length,
    lines_read, next; simpl; intros Hs.
  - contradiction.
  - destruct b as [path|path pre]; simpl.
    + destruct u as [|l u]; simpl.
      * rewrite Nat.add_0_r. reflexivity.
      * eexists. split; [reflexivity|]. simpl.
        repeat split; try discriminate; try reflexivity;
          unfold remaining; simpl; lia.
    + destruct (expected_patterns pre u) as [|p ps] eqn:E.
      * apply resume_expected_stop. exact E.
      * destruct (resume_expected_yield (ExpectedLines path pre) pre n u E)
          as [n' [u' [E' [Hp [Hn Hl]]]]].
        eexists. split; [exact E'|]. simpl.
        repeat split; try discriminate; assumption.
  - destruct b; rewrite Nat.add_0_r; reflexivity.
Qed.

(** [map] over two started generators returns the padded pairing of
    what they had left to yield, and leaves both exhausted. *)
Lemma map_None_loop_started (rounds : nat) : forall g1 g2 : generator,
  started g1 -> started g2 ->
  List.length (remaining g1) + List.length (remaining g2) < rounds ->
  map_None_loop fs rounds g1 g2
  = (MapList (zip_longest (yields g1) (yields g2)),
     Generator (body g1) (Exhausted (file_length g1)),
     Generator (body g2) (Exhausted (file_length g2))).
Proof.
  induction rounds as [|k IH]; intros g1 g2 H1 H2 Hk; [lia|].
  pose proof (next_started H1) as N1. pose proof (next_started H2) as N2.
  cbn [map_None_loop].
  destruct (yields g1) as [|x xs] eqn:Y1; destruct (yields g2) as [|y ys] eqn:Y2.
  - rewrite N1, N2. reflexivity.
  - destruct N2 as [g2' [E2 [B2 [S2 [Y2' [F2 L2]]]]]].
    rewrite N1, E2. cbn [item_of].
    rewrite IH; [|discriminate|exact S2|rewrite remaining_exhausted; simpl; lia].
    rewrite yields_exhausted, file_length_exhausted, Y2', B2, F2.
    rewrite zip_longest_nil_l. reflexivity.
  - destruct N1 as [g1' [E1 [B1 [S1 [Y1' [F1 L1]]]]]].
    rewrite E1, N2. cbn [item_of].
    rewrite IH; [|exact S1|discriminate|rewrite remaining_exhausted; simpl; lia].
    rewrite yields_exhausted, file_length_exhausted, Y1', B1, F1.
    rewrite zip_longest_nil_r. reflexivity.
  - destruct N1 as [g1' [E1 [B1 [S1 [Y1' [F1 L1]]]]]].
    destruct N2 as [g2' [E2 [B2 [S2 [Y2' [F2 L2]]]]]].
    rewrite E1, E2. cbn [item_of].
    rewrite IH; [|exact S1|exact S2|lia].
    rewrite Y1', Y2', B1, B2, F1, F2. reflexivity.
Qed.

(** The first [next] opens the file. *)
Lemma next_created (b : gen_body) (contents : string) :
  fs (gen_path b) = Some contents ->
  next fs (Generator b Created)
  = next fs (Generator b (Suspended 0 (readlines contents))).
Proof. intros H. unfold next. simpl. rewrite H. reflexivity. Qed.

Lemma map_None_opened (b1 b2 : gen_body) (c1 c2 : string) :
  fs (gen_path b1) = Some c1 -> fs (gen_path b2) = Some c2 ->
  map_None fs (Generator b1 Created) (Generator b2 Created)
  = (MapList (zip_longest
                (yields (Generator b1 (Suspended 0 (readlines c1))))
                (yields (Generator b2 (Suspended 0 (readlines c2))))),
     Generator b1 (Exhausted (List.length (readlines c1))),
     Generator b2 (Exhausted (List.length (readlines c2)))).
Proof.
  intros H1 H2. unfold map_None, pending. simpl. rewrite H1, H2.
  set (k := S (List.length (readlines c1)) + S (List.length (readlines c2))).
  transitivity (map_None_loop fs (S k)
                  (Generator b1 (Suspended 0 (readlines c1)))
                  (Generator b2 (Suspended 0 (readlines c2)))).
  - cbn [map_None_loop]. rewrite (next_created b1 H1), (next_created b2 H2).
    assert (N1 : started (Generator b1 (Suspended 0 (readlines c1))))
      by discriminate.
    apply next_started in N1.
    destruct (next fs (Generator b1 (Suspended 0 (readlines c1))))
      as [[y| |e] g1']; try reflexivity.
    exfalso. destruct (yields _); [discriminate N1|].
    destruct N1 as [g' [N1 _]]. discriminate N1.
  - rewrite map_None_loop_started; [reflexivity|discriminate|discriminate|].
    unfold remaining, k. simpl. lia.
Qed.

Variable re_match : string -> string -> option re_result.

(** [compare], when both files open: the pairs are checked in order,
    and both files have been read to their ends. *)
Lemma compare_run_opened (actual expected check_prefix ca ce : string) :
  fs actual = Some ca -> fs expected = Some ce ->
  compare_run fs re_match actual expected check_prefix
  = Run (check_pairs re_match
           (zip_longest (readlines ca)
              (expected_patterns check_prefix (readlines ce))))
        (Generator (ActualLines actual) (Exhausted (List.length (readlines ca))))
        (Generator (ExpectedLines expected check_prefix)
           (Exhausted (List.length (readlines ce)))).
Proof.
  intros Ha He. unfold compare_run, _actual_lines, _expected_lines.
  rewrite (@map_None_opened (ActualLines actual)
             (ExpectedLines expected check_prefix) ca ce Ha He).
  reflexivity.
Qed.

Lemma compare_opened (actual expected check_prefix ca ce : string) :
  fs actual = Some ca -> fs expected = Some ce ->
  compare fs re_match actual expected check_prefix
  = check_pairs re_match
      (zip_longest (readlines ca)
         (expected_patterns check_prefix (readlines ce))).
Proof.
  intros Ha He. unfold compare.
  rewrite (compare_run_opened check_prefix Ha He). reflexivity.
Qed.

(** [open] failing on either file surfaces as the [IOError]. *)
Lemma compare_actual_unreadable (actual expected check_prefix : string) :
  fs actual = None ->
  compare fs re_match actual expected check_prefix = Some (Raises IOError).
Proof.
  intros H. unfold compare, compare_run, map_None.
  cbn [map_None_loop]. unfold next at 1. simpl. rewrite H. reflexivity.
Qed.

Lemma compare_expected_unreadable (actual expected check_prefix ca : string) :
  fs actual = Some ca -> fs expected = None ->
  compare fs re_match actual expected check_prefix = Some (Raises IOError).
Proof.
  intros Ha He. unfold compare, compare_run, map_None.
  cbn [map_None_loop]. unfold next, _actual_lines, _expected_lines.
  cbn [state body gen_path]. rewrite Ha, He.
  destruct (readlines ca); reflexivity.
Qed.

(** The walk over a list of pairs gives an outcome whenever the engine
    answers. *)
Lemma check_pairs_defined (pairs : list (option string * option string)) :
  (forall pattern line, re_match pattern line <> None) ->
  check_pairs re_match pairs <> None.
Proof.
  intros Ht. induction pairs as [|[[x|] [y|]] pairs IH]; simpl; try discriminate.
  specialize (Ht y x). destruct (re_match y x) as [[| |]|];
    try discriminate; [exact IH | contradiction].
Qed.

(** [compare] returns or raises on every input on which the engine
    answers; the bound on the rounds of [map] is never met. *)
Lemma compare_defined (actual expected check_prefix : string) :
  (forall pattern line, re_match pattern line <> None) ->
  compare fs re_match actual expected check_prefix <> None.
Proof.
  intros Ht. destruct (fs actual) as [ca|] eqn:Ha.
  - destruct (fs expected) as [ce|] eqn:He.
    + rewrite (@compare_opened actual expected check_prefix ca ce Ha He).
      apply check_pairs_defined. exact Ht.
    + rewrite (@compare_expected_unreadable actual expected check_prefix ca Ha He).
      discriminate.
  - rewrite (@compare_actual_unreadable actual expected check_prefix Ha).
    discriminate.
Qed.

End GeneratorFacts.

(* ================================================================= *)
(** ** The walk over the pairs *)

Lemma expected_patterns_length (check_prefix : string) (lines : list string) :
  List.length (expected_patterns check_prefix lines)
  = List.length (annotated check_prefix lines).
Proof. unfold expected_patterns. apply length_map. Qed.

Section Walk.

Variable re_match : string -> string -> option re_result.

(** Pairs that pass are walked over. *)
Lemma check_pairs_walk (xs1 ys1 xs2 ys2 : list string) :
  Forall2 (passes re_match) xs1 ys1 ->
  check_pairs re_match (zip_longest (xs1 ++ xs2) (ys1 ++ ys2))
  = check_pairs re_match (zip_longest xs2 ys2).
Proof.
  induction 1 as [|x y xs ys Hxy _ IH]; [reflexivity|].
  simpl. unfold passes in Hxy. rewrite Hxy. exact IH.
Qed.

Lemma passes_firstn (i : nat) : forall xs ys : list string,
  i <= List.length xs -> i <= List.length ys ->
  (forall j x y, j < i -> nth_error xs j = Some x -> nth_error ys j = Some y ->
                 passes re_match x y) ->
  Forall2 (passes re_match) (firstn i xs) (firstn i ys).
Proof.
  induction i as [|i IH]; intros xs ys Hx Hy H; [constructor|].
  destruct xs as [|x xs]; [simpl in Hx; lia|].
  destruct ys as [|y ys]; [simpl in Hy; lia|].
  simpl in Hx, Hy |- *. constructor.
  - apply (H 0); [lia|reflexivity|reflexivity].
  - apply IH; [lia|lia|].
    intros j x' y' Hj Ex Ey. apply (H (S j)); [lia|exact Ex|exact Ey].
Qed.

(** The walk up to position [i], when all pairs before it pass. *)
Lemma check_pairs_skip (i : nat) (xs ys : list string) :
  i <= List.length xs -> i <= List.length ys ->
  (forall j x y, j < i -> nth_error xs j = Some x -> nth_error ys j = Some y ->
                 passes re_match x y) ->
  check_pairs re_match (zip_longest xs ys)
  = check_pairs re_match (zip_longest (skipn i xs) (skipn i ys)).
Proof.
  intros Hx Hy H.
  rewrite <- (firstn_skipn i xs) at 1. rewrite <- (firstn_skipn i ys) at 1.
  apply check_pairs_walk. apply passes_firstn; assumption.
Qed.

Lemma skipn_nth_error (A : Type) (i : nat) : forall (xs : list A) (x : A),
  nth_error xs i = Some x -> exists rest, skipn i xs = x :: rest.
Proof.
  induction i as [|i IH]; intros [|y xs] x H; try discriminate.
  - injection H as ->. exists xs. reflexivity.
  - simpl. apply IH. exact H.
Qed.

(** The outcome at the first pair that does not pass. *)
Lemma check_pairs_first_failure (i : nat) (xs ys : list string) (x y : string) :
  nth_error xs i = Some x -> nth_error ys i = Some y ->
  (forall j x' y', j < i -> nth_error xs j = Some x' ->
                   nth_error ys j = Some y' -> passes re_match x' y') ->
  check_pairs re_match (zip_longest xs ys)
  = match re_match y x with
    | None => None
    | Some MatchObject =>
        check_pairs re_match (zip_longest (skipn (S i) xs) (skipn (S i) ys))
    | Some MatchNone => Some (Raises (AssertionError (msg_mismatch x y)))
    | Some MatchError => Some (Raises ReError)
    end.
Proof.
  intros Ex Ey H.
  assert (Hx : i < List.length xs) by (apply nth_error_Some; congruence).
  assert (Hy : i < List.length ys) by (apply nth_error_Some; congruence).
  rewrite (@check_pairs_skip i xs ys); [|lia|lia|exact H].
  change (skipn (S i) xs) with (skipn (1 + i) xs).
  change (skipn (S i) ys) with (skipn (1 + i) ys).
  rewrite <- !skipn_skipn.
  destruct (skipn_nth_error _ _ Ex) as [xr ->].
  destruct (skipn_nth_error _ _ Ey) as [yr ->].
  simpl. destruct (re_match y x) as [[| |]|]; reflexivity.
Qed.

Lemma check_pairs_more_expected (xs ys : list string) :
  List.length xs < List.length ys ->
  (forall j x y, nth_error xs j = Some x -> nth_error ys j = Some y ->
                 passes re_match x y) ->
  check_pairs re_match (zip_longest xs ys)
  = Some (Raises (AssertionError msg_more_expected)).
Proof.
  intros Hl H.
  rewrite (@check_pairs_skip (List.length xs) xs ys); [|lia|lia|eauto].
  rewrite skipn_all. destruct (skipn (List.length xs) ys) as [|y yr] eqn:E.
  - apply (f_equal (@List.length string)) in E.
    rewrite length_skipn in E. simpl in E. lia.
  - reflexivity.
Qed.

Lemma check_pairs_more_actual (xs ys : list string) :
  List.length ys < List.length xs ->
  (forall j x y, nth_error xs j = Some x -> nth_error ys j = Some y ->
                 passes re_match x y) ->
  check_pairs re_match (zip_longest xs ys)
  = Some (Raises (AssertionError msg_more_actual)).
Proof.
  intros Hl H.
  rewrite (@check_pairs_skip (List.length ys) xs ys); [|lia|lia|eauto].
  rewrite (skipn_all ys). destruct (skipn (List.length ys) xs) as [|x xr] eqn:E.
  - apply (f_equal (@List.length string)) in E.
    rewrite length_skipn in E. simpl in E. lia.
  - reflexivity.
Qed.

Lemma check_pairs_all_pass (xs ys : list string) :
  List.length xs = List.length ys ->
  (forall j x y, nth_error xs j = Some x -> nth_error ys j = Some y ->
                 passes re_match x y) ->
  check_pairs re_match (zip_longest xs ys) = Some Returns.
Proof.
  intros Hl H.
  rewrite (@check_pairs_skip (List.length xs) xs ys); [|lia|lia|eauto].
  rewrite skipn_all, Hl, skipn_all. reflexivity.
Qed.

(** A walk that returns has met as many lines as patterns. *)
Lemma check_pairs_returns_length (xs : list string) : forall ys : list string,
  check_pairs re_match (zip_longest xs ys) = Some Returns ->
  List.length xs = List.length ys.
Proof.
  induction xs as [|x xs IH]; intros [|y ys] H; try reflexivity;
    try discriminate H.
  simpl in H |- *. f_equal. apply IH.
  destruct (re_match y x) as [[| |]|]; try discriminate H. exact H.
Qed.

End Walk.

(* ================================================================= *)
(** ** Facts about the engine *)

Example sre_1 : Sre.re_match "hel+o" "hello" = Some MatchObject.
Proof. reflexivity. Qed.
Example sre_2 : Sre.re_match "w.rld" "world!" = Some MatchObject.
Proof. reflexivity. Qed.
Example sre_3 : Sre.re_match "bar" "foo" = Some MatchNone.
Proof. reflexivity. Qed.
Example sre_4 : Sre.re_match "b" "ab" = Some MatchNone.
Proof. reflexivity. Qed.
Example sre_5 : Sre.re_match "a|b(" "a" = Some MatchError.
Proof. reflexivity. Qed.
Example sre_6 : Sre.re_match "(a|bc)+?d" "bcad" = Some MatchObject.
Proof. reflexivity. Qed.
Example sre_7 : Sre.re_match "a**" "a" = Some MatchError.
Proof. reflexivity. Qed.
Example sre_8 : Sre.re_match "[a]" "a" = None.
Proof. reflexivity. Qed.
Example sre_9 : Sre.re_match "a\.b" "a.b" = Some MatchObject.
Proof. reflexivity. Qed.
Example sre_10 : Sre.re_match "a\.b" "axb" = Some MatchNone.
Proof. reflexivity. Qed.

Module SreFacts.
Import Sre.
Local Open Scope list_scope.

Lemma nullable_matches (r : regex) : nullable r = true -> matches r [].
Proof.
  induction r; simpl; intros H; try discriminate.
  - constructor.
  - apply andb_prop in H. destruct H as [H1 H2].
    apply (MSeq (w1 := []) (w2 := [])); auto.
  - apply orb_prop in H. destruct H as [H|H];
      [apply MAltL|apply MAltR]; auto.
  - constructor.
Qed.

Lemma matches_nullable (r : regex) (w : list ascii) :
  matches r w -> w = [] -> nullable r = true.
Proof.
  induction 1; intros E; simpl; try discriminate; try reflexivity.
  - apply app_eq_nil in E. destruct E as [E1 E2].
    rewrite IHmatches1, IHmatches2; auto.
  - rewrite IHmatches; auto.
  - rewrite IHmatches; auto. apply orb_true_r.
Qed.

Lemma nullable_spec (r : regex) : nullable r = true <-> matches r [].
Proof.
  split; [apply nullable_matches|].
  intros H. apply (matches_nullable H). reflexivity.
Qed.

Lemma matches_star_cons (r : regex) (c : ascii) (w : list ascii) :
  matches (Star r) (c :: w) ->
  exists w1 w2, w = w1 ++ w2 /\ matches r (c :: w1) /\ matches (Star r) w2.
Proof.
  intros H. remember (Star r) as s eqn:Es. remember (c :: w) as cw eqn:Ew.
  revert w Ew.
  induction H as [| | | | | | |r' w1 w2 H1 IH1 H2 IH2]; intros v Ev;
    try discriminate.
  injection Es as ->. destruct w1 as [|d w1].
  - simpl in Ev. apply IH2; auto.
  - simpl in Ev. injection Ev as -> <-. exists w1, w2. auto.
Qed.

Lemma matches_seq_inv (r1 r2 : regex) (w : list ascii) :
  matches (Seq r1 r2) w ->
  exists w1 w2, w = w1 ++ w2 /\ matches r1 w1 /\ matches r2 w2.
Proof. inversion 1; subst. eauto. Qed.

Lemma matches_alt_inv (r1 r2 : regex) (w : list ascii) :
  matches (Alt r1 r2) w -> matches r1 w \/ matches r2 w.
Proof. inversion 1; subst; auto. Qed.

Lemma deriv_sound (c : ascii) (r : regex) : forall w,
  matches (deriv c r) w -> matches r (c :: w).
Proof.
  induction r; simpl; intros w H.
  - inversion H.
  - inversion H.
  - destruct (Ascii.eqb_spec c c0) as [->|n]; inversion H. constructor.
  - destruct (Ascii.eqb_spec c newline) as [->|n]; inversion H.
    constructor. exact n.
  - destruct (nullable r1) eqn:N.
    + apply matches_alt_inv in H. destruct H as [H|H].
      * apply matches_seq_inv in H. destruct H as [w1 [w2 [-> [H1 H2]]]].
        apply (MSeq (w1 := c :: w1)); auto.
      * apply (MSeq (w1 := [])); [apply nullable_matches; exact N | auto].
    + apply matches_seq_inv in H. destruct H as [w1 [w2 [-> [H1 H2]]]].
      apply (MSeq (w1 := c :: w1)); auto.
  - apply matches_alt_inv in H. destruct H; [apply MAltL | apply MAltR]; auto.
  - apply matches_seq_inv in H. destruct H as [w1 [w2 [-> [H1 H2]]]].
    apply (MStarS (w1 := c :: w1)); auto.
Qed.

Lemma deriv_complete (c : ascii) (r : regex) : forall w,
  matches r (c :: w) -> matches (deriv c r) w.
Proof.
  induction r; simpl; intros w H.
  - inversion H.
  - inversion H.
  - inversion H; subst. rewrite Ascii.eqb_refl. constructor.
  - inversion H as [| |? Hn| | | | |]; subst.
    apply Ascii.eqb_neq in Hn. rewrite Hn. constructor.
  - apply matches_seq_inv in H. destruct H as [w1 [w2 [E [H1 H2]]]].
    destruct w1 as [|d w1]; simpl in E.
    + subst w2. rewrite (matches_nullable H1 eq_refl).
      apply MAltR. auto.
    + injection E as <- ->.
      assert (matches (Seq (deriv c r1) r2) (w1 ++ w2))
        by (constructor; auto).
      destruct (nullable r1); [apply MAltL|]; assumption.
  - apply matches_alt_inv in H. destruct H; [apply MAltL | apply MAltR]; auto.
  - destruct (matches_star_cons H) as [w1 [w2 [-> [H1 H2]]]].
    constructor; auto.
Qed.

Lemma deriv_spec (c : ascii) (r : regex) (w : list ascii) :
  matches (deriv c r) w <-> matches r (c :: w).
Proof. split; [apply deriv_sound | apply deriv_complete]. Qed.

(** The matcher is right: it answers [true] exactly when the line
    starts with a word of the regular expression. *)
Lemma prefix_match_spec (w : list ascii) : forall r : regex,
  prefix_match r w = true <->
  exists w1 w2, w = w1 ++ w2 /\ matches r w1.
Proof.
  induction w as [|c w IH]; intros r; simpl.
  - rewrite orb_false_r, nullable_spec. split.
    + intros H. exists [], []. auto.
    + intros [w1 [w2 [E H]]]. symmetry in E. apply app_eq_nil in E.
      destruct E as [-> _]. exact H.
  - split.
    + intros H. apply orb_prop in H. destruct H as [H|H].
      * exists [], (c :: w). split; [reflexivity | apply nullable_spec; exact H].
      * apply IH in H. destruct H as [w1 [w2 [-> H]]].
        exists (c :: w1), w2. split; [reflexivity | apply deriv_spec; exact H].
    + intros [w1 [w2 [E H]]]. destruct w1 as [|d w1].
      * apply nullable_spec in H. rewrite H. reflexivity.
      * simpl in E. injection E as <- ->. apply orb_true_iff. right.
        apply IH. exists w1, w2. split; [reflexivity | apply deriv_spec; exact H].
Qed.

(** Trailing content does not undo a match. *)
Lemma prefix_match_app (r : regex) (w t : list ascii) :
  prefix_match r w = true -> prefix_match r (w ++ t) = true.
Proof.
  rewrite !prefix_match_spec. intros [w1 [w2 [-> H]]].
  exists w1, (w2 ++ t). split; [symmetry; apply app_assoc | exact H].
Qed.

Lemma list_ascii_of_string_app (s t : string) :
  list_ascii_of_string (s ++ t)%string
  = list_ascii_of_string s ++ list_ascii_of_string t.
Proof. induction s as [|c s IH]; simpl; [reflexivity | f_equal; exact IH]. Qed.

End SreFacts.

(* ================================================================= *)
(** ** The sequence a generator yields *)

Lemma drain_loop_started (fs : filesystem) (rounds : nat) : forall g : generator,
  started g -> List.length (remaining g) < rounds ->
  drain_loop fs rounds g = Items (yields g).
Proof.
  induction rounds as [|k IH]; intros g Hs Hk; [lia|].
  pose proof (@next_started fs g Hs) as N. simpl.
  destruct (yields g) as [|y ys].
  - rewrite N. reflexivity.
  - destruct N as [g' [E [_ [S' [Y' [_ L']]]]]]. rewrite E.
    rewrite IH; [|exact S'|lia]. rewrite Y'. reflexivity.
Qed.

Lemma drain_opened (fs : filesystem) (b : gen_body) (contents : string) :
  fs (gen_path b) = Some contents ->
  drain fs (Generator b Created)
  = Items (yields (Generator b (Suspended 0 (readlines contents)))).
Proof.
  intros H. unfold drain, pending. simpl. rewrite H.
  transitivity (drain_loop fs (S (List.length (readlines contents)))
                  (Generator b (Suspended 0 (readlines contents)))).
  - cbn [drain_loop]. rewrite (next_created fs b H). reflexivity.
  - apply drain_loop_started; [discriminate|]. unfold remaining. simpl. lia.
Qed.

Lemma drain_expected_lines (fs : filesystem) (path check_prefix ce : string) :
  fs path = Some ce ->
  drain fs (_expected_lines path check_prefix)
  = Items (expected_patterns check_prefix (readlines ce)).
Proof.
  intros H. unfold _expected_lines.
  rewrite (@drain_opened fs (ExpectedLines path check_prefix) ce H). reflexivity.
Qed.


(** The annotated lines and the patterns of a list of lines, by cases. *)
Lemma annotated_app (pre : string) (l1 l2 : list string) :
  annotated pre (l1 ++ l2) = (annotated pre l1 ++ annotated pre l2)%list.
Proof. apply filter_app. Qed.

Lemma expected_patterns_app (pre : string) (l1 l2 : list string) :
  expected_patterns pre (l1 ++ l2)
  = (expected_patterns pre l1 ++ expected_patterns pre l2)%list.
Proof. unfold expected_patterns. rewrite annotated_app. apply map_app. Qed.

Lemma expected_patterns_skip (pre line : string) (rest : list string) :
  startswith line pre = false ->
  expected_patterns pre (line :: rest) = expected_patterns pre rest.
Proof.
  intros H. unfold expected_patterns, annotated. simpl. rewrite H. reflexivity.
Qed.

Lemma expected_patterns_keep (pre line : string) (rest : list string) :
  startswith line pre = true ->
  expected_patterns pre (line :: rest)
  = slice_from (String.length pre) line :: expected_patterns pre rest.
Proof.
  intros H. unfold expected_patterns, annotated. simpl. rewrite H. reflexivity.
Qed.

Lemma expected_patterns_empty_prefix (lines : list string) :
  expected_patterns "" lines = lines.
Proof.
  induction lines as [|l ls IH]; [reflexivity|].
  rewrite expected_patterns_keep by apply startswith_empty.
  simpl. rewrite IH. reflexivity.
Qed.

(* ================================================================= *)
(** ** The diagnostic names its line and its pattern *)

Example repr_line : repr ("foo" ++ nl) = "'foo\n'".
Proof. reflexivity. Qed.

Example repr_single_quote :
  repr "it's" = String quote2 ("it's" ++ String quote2 EmptyString).
Proof. reflexivity. Qed.

Example repr_both_quotes :
  repr (String quote2 "'") = String quote1 (String quote2 "\''").
Proof. reflexivity. Qed.

Example repr_bytes :
  repr (String "000" (String "127" (String "255" (String "009" EmptyString))))
  = "'\x00\x7f\xff\t'".
Proof. reflexivity. Qed.

Example msg_mismatch_text :
  msg_mismatch ("foo" ++ nl) ("bar" ++ nl)
  = "Actual line did not match the expected regular expression." ++ nl ++
    "Actual: 'foo\n'" ++ nl ++ "Expected: 'bar\n'" ++ nl.
Proof. reflexivity. Qed.

Lemma unescape_repr_char (q c : ascii) (rest : string) :
  is_quote q ->
  unescape (repr_char q c ++ rest) = String c (unescape rest).
Proof.
  intros [->| ->]; destruct c as [[] [] [] [] [] [] [] []]; reflexivity.
Qed.

Lemma repr_char_no_newline (q c : ascii) :
  is_quote q -> occurs newline (repr_char q c) = false.
Proof.
  intros [->| ->]; destruct c as [[] [] [] [] [] [] [] []]; reflexivity.
Qed.

Lemma unescape_repr_body (q : ascii) (s rest : string) :
  is_quote q ->
  unescape (repr_body q s ++ rest) = s ++ unescape rest.
Proof.
  intros Hq. induction s as [|c s IH]; simpl; [reflexivity|].
  rewrite append_assoc, (@unescape_repr_char q c _ Hq), IH.
  reflexivity.
Qed.

Lemma repr_body_no_newline (q : ascii) (s : string) :
  is_quote q -> occurs newline (repr_body q s) = false.
Proof.
  intros Hq. induction s as [|c s IH]; simpl; [reflexivity|].
  rewrite occurs_append, (@repr_char_no_newline q c Hq), IH. reflexivity.
Qed.

Lemma repr_quote (s : string) :
  exists q, is_quote q /\
            repr s = String q (repr_body q s ++ String q EmptyString).
Proof.
  unfold repr. destruct (occurs quote1 s && negb (occurs quote2 s)).
  - exists quote2. split; [right|]; reflexivity.
  - exists quote1. split; [left|]; reflexivity.
Qed.

Lemma repr_injective (s t : string) : repr s = repr t -> s = t.
Proof.
  destruct (repr_quote s) as [q [Hq ->]]. destruct (repr_quote t) as [q' [Hq' ->]].
  intros H. injection H as <- H.
  apply (f_equal unescape) in H.
  rewrite !unescape_repr_body in H by assumption.
  assert (Eq : unescape (String q EmptyString) = String q EmptyString)
    by (destruct Hq as [->| ->]; reflexivity).
  rewrite Eq in H. apply append_char_inj in H. exact H.
Qed.

Lemma repr_no_newline (s : string) : occurs newline (repr s) = false.
Proof.
  destruct (repr_quote s) as [q [Hq ->]]. simpl.
  rewrite occurs_append, (@repr_body_no_newline q s Hq). simpl.
  destruct Hq as [->| ->]; reflexivity.
Qed.

Lemma msg_mismatch_injective (a p a' p' : string) :
  msg_mismatch a p = msg_mismatch a' p' -> a = a' /\ p = p'.
Proof.
  unfold msg_mismatch. intros H.
  apply append_inj, append_inj, append_inj in H.
  apply split_at_newline in H; try apply repr_no_newline.
  destruct H as [Ha H]. apply repr_injective in Ha.
  apply append_inj in H. unfold nl in H.
  apply split_at_newline in H; try apply repr_no_newline.
  destruct H as [Hp _]. apply repr_injective in Hp. split; assumption.
Qed.

(* ================================================================= *)
(** ** The outcome of [compare] *)

Section Outcome.

Variable fs : filesystem.
Variable re_match : string -> string -> option re_result.
Variables actual expected check_prefix : string.

(** The contents of the two files. *)
Variables ca ce : string.
Hypothesis actual_opens : fs actual = Some ca.
Hypothesis expected_opens : fs expected = Some ce.

Let actual_lines : list string := readlines ca.
Let patterns : list string := expected_patterns check_prefix (readlines ce).

(** C1: when the actual output has as many lines as the expectations
    file has annotated lines, and at every position the pattern matches
    the actual line at position zero, [compare] returns normally. *)
Theorem compare_succeeds :
  List.length actual_lines
  = List.length (annotated check_prefix (readlines ce)) ->
  (forall i line pattern,
      nth_error actual_lines i = Some line ->
      nth_error patterns i = Some pattern ->
      re_match pattern line = Some MatchObject) ->
  compare fs re_match actual expected check_prefix = Some Returns.
Proof.
  intros Hl H.
  rewrite (@compare_opened fs re_match actual expected check_prefix ca ce
             actual_opens expected_opens).
  apply check_pairs_all_pass.
  - rewrite expected_patterns_length. exact Hl.
  - exact H.
Qed.

(** C2: with equal counts, when position [i] is the first at which the
    pattern does not match its line, [compare] raises the error whose
    diagnostic is built from the [i]-th actual line and the [i]-th
    pattern, whatever the later positions hold; and that diagnostic is
    the diagnostic of no other line or pattern. *)
Theorem compare_first_mismatch (i : nat) (line pattern : string) :
  List.length actual_lines
  = List.length (annotated check_prefix (readlines ce)) ->
  nth_error actual_lines i = Some line ->
  nth_error patterns i = Some pattern ->
  re_match pattern line = Some MatchNone ->
  (forall j line' pattern',
      j < i ->
      nth_error actual_lines j = Some line' ->
      nth_error patterns j = Some pattern' ->
      re_match pattern' line' = Some MatchObject) ->
  compare fs re_match actual expected check_prefix
  = Some (Raises (AssertionError (msg_mismatch line pattern))) /\
  (forall line' pattern',
      compare fs re_match actual expected check_prefix
      = Some (Raises (AssertionError (msg_mismatch line' pattern'))) ->
      line' = line /\ pattern' = pattern).
Proof.
  intros _ Hx Hy Hm H. unfold actual_lines, patterns in *.
  rewrite (@compare_opened fs re_match actual expected check_prefix ca ce
             actual_opens expected_opens).
  rewrite (@check_pairs_first_failure re_match i _ _ _ _ Hx Hy H), Hm.
  split; [reflexivity|].
  intros line' pattern' E.
  apply (f_equal (fun o => match o with
                           | Some (Raises (AssertionError m)) => m
                           | _ => EmptyString
                           end)) in E.
  symmetry in E. apply msg_mismatch_injective in E. exact E.
Qed.

(** C3: when the actual lines run out before the patterns and every
    pair met so far matched, [compare] raises the error for more lines
    expected than present; when the patterns run out first, it raises the
    error for more lines present than expected. *)
Theorem compare_exhausted_first :
  (forall i line pattern,
      nth_error actual_lines i = Some line ->
      nth_error patterns i = Some pattern ->
      re_match pattern line = Some MatchObject) ->
  (List.length actual_lines < List.length patterns ->
   compare fs re_match actual expected check_prefix
   = Some (Raises (AssertionError msg_more_expected))) /\
  (List.length patterns < List.length actual_lines ->
   compare fs re_match actual expected check_prefix
   = Some (Raises (AssertionError msg_more_actual))).
Proof.
  intros H.
  rewrite (@compare_opened fs re_match actual expected check_prefix ca ce
             actual_opens expected_opens).
  split; intros Hl.
  - apply check_pairs_more_expected; assumption.
  - apply check_pairs_more_actual; assumption.
Qed.

(** C4, as amended: when the counts differ, [compare] does not return
    normally; it raises the length diagnosis of the longer side when
    every line that is present matches its pattern, and the content
    diagnostic of the first pair that does not match otherwise. *)
Theorem compare_counts_differ :
  List.length actual_lines
  <> List.length (annotated check_prefix (readlines ce)) ->
  compare fs re_match actual expected check_prefix <> Some Returns /\
  ((forall pattern line, re_match pattern line <> None) ->
   exists e, compare fs re_match actual expected check_prefix
             = Some (Raises e)) /\
  ((forall i line pattern,
       nth_error actual_lines i = Some line ->
       nth_error patterns i = Some pattern ->
       re_match pattern line = Some MatchObject) ->
   compare fs re_match actual expected check_prefix
   = Some (Raises (AssertionError
                     (if Nat.ltb (List.length actual_lines)
                                 (List.length patterns)
                      then msg_more_expected else msg_more_actual)))) /\
  (forall i line pattern,
      nth_error actual_lines i = Some line ->
      nth_error patterns i = Some pattern ->
      re_match pattern line = Some MatchNone ->
      (forall j line' pattern',
          j < i ->
          nth_error actual_lines j = Some line' ->
          nth_error patterns j = Some pattern' ->
          re_match pattern' line' = Some MatchObject) ->
      compare fs re_match actual expected check_prefix
      = Some (Raises (AssertionError (msg_mismatch line pattern)))).
Proof.
  intros Hl. rewrite <- expected_patterns_length in Hl.
  unfold actual_lines, patterns in *.
  rewrite (@compare_opened fs re_match actual expected check_prefix ca ce
             actual_opens expected_opens).
  split; [|split; [|split]].
  - intros H. apply check_pairs_returns_length in H. contradiction.
  - intros Ht.
    destruct (check_pairs re_match
                (zip_longest (readlines ca)
                   (expected_patterns check_prefix (readlines ce))))
      as [[|e]|] eqn:E.
    + apply check_pairs_returns_length in E. contradiction.
    + exists e. reflexivity.
    + exfalso. exact (@check_pairs_defined re_match _ Ht E).
  - intros H.
    destruct (Nat.ltb_spec (List.length (readlines ca))
                (List.length (expected_patterns check_prefix (readlines ce)))).
    + apply check_pairs_more_expected; assumption.
    + apply check_pairs_more_actual; [lia | assumption].
  - intros i line pattern Hx Hy Hm H.
    rewrite (@check_pairs_first_failure re_match i _ _ _ _ Hx Hy H), Hm.
    reflexivity.
Qed.

End Outcome.

(* ================================================================= *)
(** ** The pattern sequence *)

(** C5: a line of the expectations file that does not start with the
    check prefix adds nothing to the sequence that [_expected_lines]
    yields and takes no position in it; a line that starts with the
    prefix, compared byte by byte from position zero, adds at its place
    exactly what follows the prefix. *)
Theorem expected_lines_filter (fs : filesystem) (path check_prefix ce : string)
    (before after : list string) (line : string) :
  fs path = Some ce ->
  readlines ce = (before ++ line :: after)%list ->
  (startswith line check_prefix = true <-> exists rest, line = check_prefix ++ rest) /\
  (startswith line check_prefix = false ->
   drain fs (_expected_lines path check_prefix)
   = Items (expected_patterns check_prefix before
            ++ expected_patterns check_prefix after)%list) /\
  (forall rest, line = check_prefix ++ rest ->
   drain fs (_expected_lines path check_prefix)
   = Items (expected_patterns check_prefix before
            ++ rest :: expected_patterns check_prefix after)%list).
Proof.
  intros Hf Hl. rewrite (@drain_expected_lines fs path check_prefix ce Hf), Hl.
  rewrite expected_patterns_app. split; [apply startswith_iff|]. split.
  - intros H. rewrite (@expected_patterns_skip check_prefix line after H). reflexivity.
  - intros rest ->.
    rewrite (@expected_patterns_keep check_prefix _ after
               (startswith_app check_prefix rest)).
    rewrite slice_from_app. reflexivity.
Qed.

(** C10: [compare] accepts an empty check prefix; every line of the
    expectations file then starts with it and is a pattern as it stands,
    so the pattern sequence is the whole file. *)
Theorem empty_prefix_takes_every_line (fs : filesystem)
    (re_match : string -> string -> option re_result)
    (actual expected ca ce : string) :
  fs actual = Some ca ->
  fs expected = Some ce ->
  (forall line, startswith line "" = true /\ slice_from (String.length "") line = line) /\
  drain fs (_expected_lines expected "") = Items (readlines ce) /\
  compare fs re_match actual expected ""
  = check_pairs re_match (zip_longest (readlines ca) (readlines ce)).
Proof.
  intros Ha He. split; [|split].
  - intros line. split; [apply startswith_empty | reflexivity].
  - rewrite (@drain_expected_lines fs expected "" ce He).
    rewrite expected_patterns_empty_prefix. reflexivity.
  - rewrite (@compare_opened fs re_match actual expected "" ca ce Ha He).
    rewrite expected_patterns_empty_prefix. reflexivity.
Qed.

(* ================================================================= *)
(** ** What [compare] reads *)

(** C8, as amended: [map] builds the whole list of pairs before the
    first pair is checked.  Whenever both files open, both generators are
    exhausted when [map] returns, every line of both files has been read
    when [compare] returns or raises, whatever its outcome, and only the
    walk over the pairs stops at the first failure. *)
Theorem compare_reads_both_files (fs : filesystem)
    (re_match : string -> string -> option re_result)
    (actual expected check_prefix ca ce : string) :
  fs actual = Some ca ->
  fs expected = Some ce ->
  map_None fs (_actual_lines actual) (_expected_lines expected check_prefix)
  = (MapList (zip_longest (readlines ca)
                (expected_patterns check_prefix (readlines ce))),
     Generator (ActualLines actual) (Exhausted (List.length (readlines ca))),
     Generator (ExpectedLines expected check_prefix)
       (Exhausted (List.length (readlines ce)))) /\
  lines_read (actual_gen (compare_run fs re_match actual expected check_prefix))
  = List.length (readlines ca) /\
  lines_read (expected_gen (compare_run fs re_match actual expected check_prefix))
  = List.length (readlines ce) /\
  (forall pairs failing later e,
      check_pairs re_match [failing] = Some (Raises e) ->
      check_pairs re_match pairs = Some Returns ->
      check_pairs re_match (pairs ++ failing :: later) = Some (Raises e)).
Proof.
  intros Ha He. split; [|split; [|split]].
  - unfold _actual_lines, _expected_lines.
    rewrite (@map_None_opened fs (ActualLines actual)
               (ExpectedLines expected check_prefix) ca ce Ha He).
    reflexivity.
  - rewrite (@compare_run_opened fs re_match actual expected check_prefix ca ce Ha He).
    reflexivity.
  - rewrite (@compare_run_opened fs re_match actual expected check_prefix ca ce Ha He).
    reflexivity.
  - intros pairs failing later e Hf.
    induction pairs as [|[[x|] [y|]] pairs IH]; simpl; intros Hp;
      try discriminate Hp.
    + destruct failing as [[x|] [y|]]; simpl in Hf |- *; try exact Hf.
      destruct (re_match y x) as [[| |]|]; try discriminate Hf; exact Hf.
    + destruct (re_match y x) as [[| |]|]; try discriminate Hp. apply IH. exact Hp.
Qed.

(* ================================================================= *)
(** ** Patterns of particular shapes *)

Module SrePatterns.
Import Sre SreFacts.
Local Open Scope list_scope.

Lemma compile_empty : compile "" = Compiled Eps.
Proof. reflexivity. Qed.

Lemma re_match_empty (line : string) : re_match "" line = Some MatchObject.
Proof.
  unfold re_match. rewrite compile_empty.
  destruct (list_ascii_of_string line); reflexivity.
Qed.

Lemma re_match_app (pattern line tail : string) :
  re_match pattern line = Some MatchObject ->
  re_match pattern (line ++ tail)%string = Some MatchObject.
Proof.
  unfold re_match. destruct (compile pattern) as [r| |]; try discriminate.
  destruct (prefix_match r (list_ascii_of_string line)) eqn:E; [|discriminate].
  intros _. rewrite list_ascii_of_string_app.
  rewrite (@prefix_match_app r _ (list_ascii_of_string tail) E).
  reflexivity.
Qed.


(** *** Literal patterns *)









(** *** Patterns that end with the newline *)









End SrePatterns.

(* ================================================================= *)
(** ** Matching a pattern against a line *)


(* ================================================================= *)
(** ** Runs on concrete files *)

Ltac pairs_upto3 :=
  let i := fresh "i" in
  let Hl := fresh "Hl" in
  let Hp := fresh "Hp" in
  intros i ? ? Hl Hp;
  destruct i as [|[|[|i]]]; vm_compute in Hl, Hp;
  try discriminate Hl; try discriminate Hp;
  injection Hl as <-; injection Hp as <-; vm_compute; reflexivity.

Lemma compare_succeeds_witness :
  compare fs_pass Sre.re_match "actual.txt" "expected.swift" "// CHECK: "
  = Some Returns.
Proof.
  apply (@compare_succeeds fs_pass Sre.re_match "actual.txt" "expected.swift"
           "// CHECK: " (text ["hello"; "world"])
           (text ["// CHECK: hel+o"; "print(1)"; "// CHECK: w.rld"])).
  - reflexivity.
  - reflexivity.
  - reflexivity.
  - pairs_upto3.
Defined.

Lemma compare_first_mismatch_witness :
  compare fs_mismatch Sre.re_match "actual.txt" "expected.swift" "# "
  = Some (Raises (AssertionError (msg_mismatch ("foo" ++ nl) ("bar" ++ nl)))).
Proof.
  refine (proj1 (@compare_first_mismatch fs_mismatch Sre.re_match "actual.txt"
           "expected.swift" "# " (text ["hello"; "foo"; "baz"])
           (text ["# hello"; "# bar"; "# qux"]) eq_refl eq_refl 1
           ("foo" ++ nl) ("bar" ++ nl) _ _ _ _ _)).
  - reflexivity.
  - reflexivity.
  - reflexivity.
  - reflexivity.
  - intros j line' pattern' Hj Hl Hp.
    destruct j as [|j]; [|lia]. vm_compute in Hl, Hp.
    injection Hl as <-; injection Hp as <-. reflexivity.
Defined.

Lemma compare_exhausted_first_witness :
  compare fs_short Sre.re_match "actual.txt" "expected.swift" "# "
  = Some (Raises (AssertionError msg_more_expected)) /\
  compare fs_long Sre.re_match "actual.txt" "expected.swift" "# "
  = Some (Raises (AssertionError msg_more_actual)).
Proof.
  split.
  - apply (@compare_exhausted_first fs_short Sre.re_match "actual.txt"
             "expected.swift" "# " (text ["hello"])
             (text ["# hello"; "# extra"]) eq_refl eq_refl).
    + pairs_upto3.
    + vm_compute. lia.
  - apply (@compare_exhausted_first fs_long Sre.re_match "actual.txt"
             "expected.swift" "# " (text ["hello"; "goodbye"])
             (text ["# hello"]) eq_refl eq_refl).
    + pairs_upto3.
    + vm_compute. lia.
Defined.

(** C4 fails as stated: two actual lines against one pattern, and the
    first pair does not match; [compare] raises the content diagnostic of
    that pair and neither of the length diagnoses. *)
Lemma length_diagnosis_counterexample :
  List.length (readlines (text ["foo"; "x"])) = 2 /\
  List.length (annotated "# " (readlines (text ["# bar"]))) = 1 /\
  compare fs_long_mismatch Sre.re_match "actual.txt" "expected.swift" "# "
  = Some (Raises (AssertionError (msg_mismatch ("foo" ++ nl) ("bar" ++ nl)))) /\
  compare fs_long_mismatch Sre.re_match "actual.txt" "expected.swift" "# "
  <> Some (Raises (AssertionError msg_more_actual)) /\
  compare fs_long_mismatch Sre.re_match "actual.txt" "expected.swift" "# "
  <> Some (Raises (AssertionError msg_more_expected)).
Proof.
  repeat split; try reflexivity; vm_compute; discriminate.
Qed.

Lemma compare_counts_differ_witness :
  compare fs_long_mismatch Sre.re_match "actual.txt" "expected.swift" "# "
  <> Some Returns /\
  compare fs_long Sre.re_match "actual.txt" "expected.swift" "# "
  = Some (Raises (AssertionError msg_more_actual)).
Proof.
  split.
  - apply (@compare_counts_differ fs_long_mismatch Sre.re_match "actual.txt"
             "expected.swift" "# " (text ["foo"; "x"]) (text ["# bar"])
             eq_refl eq_refl).
    vm_compute. discriminate.
  - refine (proj1 (proj2 (proj2 (@compare_counts_differ fs_long Sre.re_match
             "actual.txt" "expected.swift" "# " (text ["hello"; "goodbye"])
             (text ["# hello"]) eq_refl eq_refl _))) _).
    + vm_compute. discriminate.
    + pairs_upto3.
Defined.

Lemma expected_lines_filter_witness :
  drain fs_pass (_expected_lines "expected.swift" "// CHECK: ")
  = Items ["hel+o" ++ nl; "w.rld" ++ nl].
Proof.
  refine (proj1 (proj2 (@expected_lines_filter fs_pass "expected.swift"
            "// CHECK: "
            (text ["// CHECK: hel+o"; "print(1)"; "// CHECK: w.rld"])
            ["// CHECK: hel+o" ++ nl] ["// CHECK: w.rld" ++ nl]
            ("print(1)" ++ nl) _ _)) _).
  - reflexivity.
  - reflexivity.
  - reflexivity.
Defined.

Lemma empty_prefix_takes_every_line_witness :
  drain fs_pass (_expected_lines "expected.swift" "")
  = Items ["// CHECK: hel+o" ++ nl; "print(1)" ++ nl; "// CHECK: w.rld" ++ nl].
Proof.
  refine (proj1 (proj2 (@empty_prefix_takes_every_line fs_pass Sre.re_match
            "actual.txt" "expected.swift" (text ["hello"; "world"])
            (text ["// CHECK: hel+o"; "print(1)"; "// CHECK: w.rld"]) _ _))).
  - reflexivity.
  - reflexivity.
Defined.

(** C8 fails as stated: the first pair does not match, which takes one
    line of each file to find out, and all three lines of both files have
    been read when [compare] raises. *)
Lemma lazy_reading_counterexample :
  result (compare_run fs_first_mismatch Sre.re_match
            "actual.txt" "expected.swift" "# ")
  = Some (Raises (AssertionError (msg_mismatch ("foo" ++ nl) ("bar" ++ nl)))) /\
  lines_read (actual_gen (compare_run fs_first_mismatch Sre.re_match
                            "actual.txt" "expected.swift" "# ")) = 3 /\
  lines_read (expected_gen (compare_run fs_first_mismatch Sre.re_match
                              "actual.txt" "expected.swift" "# ")) = 3.
Proof. repeat split; vm_compute; reflexivity. Qed.

Lemma compare_reads_both_files_witness :
  lines_read (actual_gen (compare_run fs_mismatch Sre.re_match
                            "actual.txt" "expected.swift" "# ")) = 3 /\
  lines_read (expected_gen (compare_run fs_mismatch Sre.re_match
                              "actual.txt" "expected.swift" "# ")) = 3.
Proof.
  pose proof (@compare_reads_both_files fs_mismatch Sre.re_match "actual.txt"
                "expected.swift" "# " (text ["hello"; "foo"; "baz"])
                (text ["# hello"; "# bar"; "# qux"]) eq_refl eq_refl)
    as [_ [Ha [He _]]].
  split; [exact Ha | exact He].
Defined.



(* ================================================================= *)
(** ** From the outcome back to the files *)

Lemma assertion_message_inj (m m' : string) :
  Some (Raises (AssertionError m)) = Some (Raises (AssertionError m')) -> m = m'.
Proof. intros H. injection H as H. exact H. Qed.

Lemma msg_mismatch_not_more_expected (a p : string) :
  msg_mismatch a p <> msg_more_expected.
Proof. unfold msg_mismatch, msg_more_expected. simpl. discriminate. Qed.

Lemma msg_mismatch_not_more_actual (a p : string) :
  msg_mismatch a p <> msg_more_actual.
Proof. unfold msg_mismatch, msg_more_actual. simpl. discriminate. Qed.

Lemma msg_more_expected_not_more_actual : msg_more_expected <> msg_more_actual.
Proof. unfold msg_more_expected, msg_more_actual. discriminate. Qed.

Section WalkBack.

Variable re_match : string -> string -> option re_result.

Lemma all_pass_cons (x y : string) (xs ys : list string) :
  passes re_match x y -> all_pass re_match xs ys -> all_pass re_match (x :: xs) (y :: ys).
Proof.
  intros H0 H [|i] x' y' Hx Hy; simpl in Hx, Hy.
  - injection Hx as <-. injection Hy as <-. exact H0.
  - apply (H i); assumption.
Qed.

Lemma first_failure_cons (x y : string) (xs ys : list string) (i : nat)
    (a p : string) (r : re_result) :
  passes re_match x y -> first_failure re_match xs ys i a p r ->
  first_failure re_match (x :: xs) (y :: ys) (S i) a p r.
Proof.
  intros H0 [Hx [Hy [Hr H]]]. repeat split; try assumption.
  intros [|j] x' y' Hj Ex Ey; simpl in Ex, Ey.
  - injection Ex as <-. injection Ey as <-. exact H0.
  - apply (H j); [lia | assumption | assumption].
Qed.

Lemma first_failure_here (x y : string) (xs ys : list string) (r : re_result) :
  re_match y x = Some r -> first_failure re_match (x :: xs) (y :: ys) 0 x y r.
Proof.
  intros H. repeat split; try assumption. intros j x' y' Hj. lia.
Qed.

(** A walk that returns has met equal counts and only passing pairs. *)
Lemma check_pairs_returns_inv (xs : list string) : forall ys : list string,
  check_pairs re_match (zip_longest xs ys) = Some Returns ->
  List.length xs = List.length ys /\ all_pass re_match xs ys.
Proof.
  induction xs as [|x xs IH]; intros [|y ys] H; try discriminate H.
  - split; [reflexivity|]. intros [|i] x y Hx; discriminate Hx.
  - simpl in H. destruct (re_match y x) as [[| |]|] eqn:E; try discriminate H.
    destruct (IH ys H) as [Hl Hp]. split; [simpl; lia|].
    apply all_pass_cons; assumption.
Qed.

(** A walk that raises a content diagnostic has met the pair it names,
    as its first pair that does not pass. *)
Lemma check_pairs_mismatch_inv (a p : string) (xs : list string) :
  forall ys : list string,
  check_pairs re_match (zip_longest xs ys)
  = Some (Raises (AssertionError (msg_mismatch a p))) ->
  exists i, first_failure re_match xs ys i a p MatchNone.
Proof.
  induction xs as [|x xs IH]; intros [|y ys] H.
  - discriminate H.
  - apply assertion_message_inj in H. symmetry in H.
    apply msg_mismatch_not_more_expected in H. contradiction.
  - apply assertion_message_inj in H. symmetry in H.
    apply msg_mismatch_not_more_actual in H. contradiction.
  - cbn [zip_longest check_pairs] in H.
    destruct (re_match y x) as [[| |]|] eqn:E; try discriminate H.
    + destruct (IH ys H) as [i Hi]. exists (S i).
      apply first_failure_cons; assumption.
    + apply assertion_message_inj, msg_mismatch_injective in H.
      destruct H as [-> ->]. exists 0. apply first_failure_here. exact E.
Qed.

Lemma check_pairs_error_inv (xs : list string) : forall ys : list string,
  check_pairs re_match (zip_longest xs ys) = Some (Raises ReError) ->
  exists i x y, first_failure re_match xs ys i x y MatchError.
Proof.
  induction xs as [|x xs IH]; intros [|y ys] H; try discriminate H.
  cbn [zip_longest check_pairs] in H.
  destruct (re_match y x) as [[| |]|] eqn:E; try discriminate H.
  - destruct (IH ys H) as [i [a [p Hi]]]. exists (S i), a, p.
    apply first_failure_cons; assumption.
  - exists 0, x, y. apply first_failure_here. exact E.
Qed.

Lemma check_pairs_more_expected_inv (xs : list string) : forall ys : list string,
  check_pairs re_match (zip_longest xs ys)
  = Some (Raises (AssertionError msg_more_expected)) ->
  List.length xs < List.length ys /\ all_pass re_match xs ys.
Proof.
  induction xs as [|x xs IH]; intros [|y ys] H.
  - discriminate H.
  - split; [simpl; lia|]. intros [|i] x' y' Hx; discriminate Hx.
  - apply assertion_message_inj in H. symmetry in H.
    apply msg_more_expected_not_more_actual in H. contradiction.
  - cbn [zip_longest check_pairs] in H.
    destruct (re_match y x) as [[| |]|] eqn:E; try discriminate H.
    destruct (IH ys H) as [Hl Hp]. split; [simpl; lia|].
    apply all_pass_cons; assumption.
Qed.

Lemma check_pairs_more_actual_inv (xs : list string) : forall ys : list string,
  check_pairs re_match (zip_longest xs ys)
  = Some (Raises (AssertionError msg_more_actual)) ->
  List.length ys < List.length xs /\ all_pass re_match xs ys.
Proof.
  induction xs as [|x xs IH]; intros [|y ys] H.
  - discriminate H.
  - apply assertion_message_inj in H.
    apply msg_more_expected_not_more_actual in H. contradiction.
  - split; [simpl; lia|]. intros [|i] x' y' Hx Hy; discriminate Hy.
  - cbn [zip_longest check_pairs] in H.
    destruct (re_match y x) as [[| |]|] eqn:E; try discriminate H.
    destruct (IH ys H) as [Hl Hp]. split; [simpl; lia|].
    apply all_pass_cons; assumption.
Qed.

Lemma check_pairs_no_ioerror (pairs : list (option string * option string)) :
  check_pairs re_match pairs <> Some (Raises IOError).
Proof.
  induction pairs as [|[[x|] [y|]] pairs IH]; simpl; try discriminate.
  destruct (re_match y x) as [[| |]|]; try discriminate. exact IH.
Qed.

(** The walk at a first pair that does not pass. *)
Lemma check_pairs_at_first_failure (xs ys : list string) (i : nat)
    (x y : string) (r : re_result) :
  first_failure re_match xs ys i x y r -> r <> MatchObject ->
  check_pairs re_match (zip_longest xs ys)
  = match r with
    | MatchNone => Some (Raises (AssertionError (msg_mismatch x y)))
    | _ => Some (Raises ReError)
    end.
Proof.
  intros [Hx [Hy [Hr H]]] Hne.
  rewrite (@check_pairs_first_failure re_match i xs ys x y Hx Hy H), Hr.
  destruct r; [contradiction | reflexivity | reflexivity].
Qed.

End WalkBack.

(* ================================================================= *)
(** ** The empty pattern and the anchoring, in [compare] *)

Lemma startswith_self (s : string) : startswith s s = true.
Proof.
  pose proof (startswith_app s "") as H. rewrite append_empty_r in H. exact H.
Qed.

(** [compare] at a pair that all earlier pairs lead to. *)
Lemma compare_at_pair (fs : filesystem)
    (re_match : string -> string -> option re_result)
    (actual expected check_prefix ca ce : string)
    (i : nat) (line pattern : string) :
  fs actual = Some ca ->
  fs expected = Some ce ->
  nth_error (readlines ca) i = Some line ->
  nth_error (expected_patterns check_prefix (readlines ce)) i = Some pattern ->
  (forall j l p, j < i -> nth_error (readlines ca) j = Some l ->
     nth_error (expected_patterns check_prefix (readlines ce)) j = Some p ->
     passes re_match l p) ->
  compare fs re_match actual expected check_prefix
  = match re_match pattern line with
    | None => None
    | Some MatchObject =>
        check_pairs re_match
          (zip_longest (skipn (S i) (readlines ca))
             (skipn (S i) (expected_patterns check_prefix (readlines ce))))
    | Some MatchNone => Some (Raises (AssertionError (msg_mismatch line pattern)))
    | Some MatchError => Some (Raises ReError)
    end.
Proof.
  intros Ha He Hl Hp Hearlier.
  rewrite (@compare_opened fs re_match actual expected check_prefix ca ce Ha He).
  apply (@check_pairs_first_failure re_match i _ _ line pattern Hl Hp Hearlier).
Qed.

(** The content diagnostic names a pair that [re.match] has refused. *)
Lemma compare_mismatch_refused (fs : filesystem)
    (re_match : string -> string -> option re_result)
    (actual expected check_prefix ca ce line pattern : string) :
  fs actual = Some ca ->
  fs expected = Some ce ->
  compare fs re_match actual expected check_prefix
  = Some (Raises (AssertionError (msg_mismatch line pattern))) ->
  re_match pattern line = Some MatchNone.
Proof.
  intros Ha He H.
  rewrite (@compare_opened fs re_match actual expected check_prefix ca ce Ha He)
    in H.
  apply check_pairs_mismatch_inv in H.
  destruct H as [i [_ [_ [Hr _]]]]. exact Hr.
Qed.

(** C6, as amended: the annotated line that is the check prefix byte for
    byte, with no terminator after it, gives the empty pattern, and no
    other annotated line does.  When [re.match] finds the empty pattern
    in every line, [compare] never raises the content diagnostic for the
    empty pattern, whatever the actual line, and its outcome at a pair
    with the empty pattern is that of the pairs after it.  The annotated
    line that is the prefix and its newline gives the newline as its
    pattern, and at a pair with that pattern which [re.match] refuses
    [compare] raises the content diagnostic. *)
Theorem empty_pattern_never_mismatches (fs : filesystem)
    (re_match : string -> string -> option re_result)
    (actual expected check_prefix ca ce : string) :
  fs actual = Some ca ->
  fs expected = Some ce ->
  (forall line, re_match "" line = Some MatchObject) ->
  (forall before after,
      readlines ce = (before ++ check_prefix :: after)%list ->
      drain fs (_expected_lines expected check_prefix)
      = Items (expected_patterns check_prefix before
               ++ "" :: expected_patterns check_prefix after)%list) /\
  (forall before after,
      readlines ce = (before ++ (check_prefix ++ nl)%string :: after)%list ->
      drain fs (_expected_lines expected check_prefix)
      = Items (expected_patterns check_prefix before
               ++ nl :: expected_patterns check_prefix after)%list) /\
  Forall2 (fun annotated_line pattern =>
             pattern = "" <-> annotated_line = check_prefix)
    (annotated check_prefix (readlines ce))
    (expected_patterns check_prefix (readlines ce)) /\
  (forall line,
      compare fs re_match actual expected check_prefix
      <> Some (Raises (AssertionError (msg_mismatch line "")))) /\
  (forall i line,
      nth_error (readlines ca) i = Some line ->
      nth_error (expected_patterns check_prefix (readlines ce)) i = Some "" ->
      (forall j l p, j < i -> nth_error (readlines ca) j = Some l ->
         nth_error (expected_patterns check_prefix (readlines ce)) j = Some p ->
         passes re_match l p) ->
      compare fs re_match actual expected check_prefix
      = check_pairs re_match
          (zip_longest (skipn (S i) (readlines ca))
             (skipn (S i) (expected_patterns check_prefix (readlines ce))))) /\
  (forall i line,
      nth_error (readlines ca) i = Some line ->
      nth_error (expected_patterns check_prefix (readlines ce)) i = Some nl ->
      (forall j l p, j < i -> nth_error (readlines ca) j = Some l ->
         nth_error (expected_patterns check_prefix (readlines ce)) j = Some p ->
         passes re_match l p) ->
      re_match nl line = Some MatchNone ->
      compare fs re_match actual expected check_prefix
      = Some (Raises (AssertionError (msg_mismatch line nl)))).
Proof.
  intros Ha He Hempty. split; [|split; [|split; [|split; [|split]]]].
  - intros before after H.
    rewrite (@drain_expected_lines fs expected check_prefix ce He), H.
    rewrite expected_patterns_app.
    rewrite (@expected_patterns_keep check_prefix check_prefix after
               (startswith_self check_prefix)).
    rewrite slice_from_self. reflexivity.
  - intros before after H.
    rewrite (@drain_expected_lines fs expected check_prefix ce He), H.
    rewrite expected_patterns_app.
    rewrite (@expected_patterns_keep check_prefix (check_prefix ++ nl) after
               (startswith_app check_prefix nl)).
    rewrite slice_from_app. reflexivity.
  - unfold expected_patterns, annotated.
    induction (readlines ce) as [|x xs IH]; simpl; [constructor|].
    destruct (startswith x check_prefix) eqn:E; [|exact IH].
    simpl. constructor; [|exact IH].
    apply startswith_split in E. split.
    + intros H. rewrite H, append_empty_r in E. exact E.
    + intros H. rewrite H. apply slice_from_self.
  - intros line H.
    apply (@compare_mismatch_refused fs re_match actual expected check_prefix
             ca ce line "" Ha He) in H.
    rewrite Hempty in H. discriminate H.
  - intros i line Hl Hp Hearlier.
    rewrite (@compare_at_pair fs re_match actual expected check_prefix ca ce
               i line "" Ha He Hl Hp Hearlier).
    rewrite Hempty. reflexivity.
  - intros i line Hl Hp Hearlier Hr.
    rewrite (@compare_at_pair fs re_match actual expected check_prefix ca ce
               i line nl Ha He Hl Hp Hearlier).
    rewrite Hr. reflexivity.
Qed.

(** C6 fails as stated: the annotated line holds the prefix and nothing
    after it but its terminator; the pattern is then the newline, the
    actual line does not start with one, and [compare] raises the content
    diagnostic. *)
Lemma empty_annotation_counterexample :
  readlines (text ["#"]) = ["#" ++ nl] /\
  expected_patterns "#" (readlines (text ["#"])) = [nl] /\
  readlines (text ["abc"]) = ["abc" ++ nl] /\
  compare fs_prefix_line Sre.re_match "actual.txt" "expected.swift" "#"
  = Some (Raises (AssertionError (msg_mismatch ("abc" ++ nl) nl))).
Proof. repeat split; vm_compute; reflexivity. Qed.

Lemma empty_pattern_never_mismatches_witness :
  drain fs_bare_prefix (_expected_lines "expected.swift" "# ")
  = Items ["a" ++ nl; ""] /\
  compare fs_bare_prefix Sre.re_match "actual.txt" "expected.swift" "# "
  = Some Returns /\
  drain fs_prefix_line (_expected_lines "expected.swift" "#") = Items [nl] /\
  compare fs_prefix_line Sre.re_match "actual.txt" "expected.swift" "#"
  = Some (Raises (AssertionError (msg_mismatch ("abc" ++ nl) nl))).
Proof.
  pose proof (@empty_pattern_never_mismatches fs_bare_prefix Sre.re_match
                "actual.txt" "expected.swift" "# " (text ["a"; "anything"])
                (text ["# a"] ++ "# ") eq_refl eq_refl
                SrePatterns.re_match_empty) as [H1 [_ [_ [_ [H5 _]]]]].
  pose proof (@empty_pattern_never_mismatches fs_prefix_line Sre.re_match
                "actual.txt" "expected.swift" "#" (text ["abc"])
                (text ["#"]) eq_refl eq_refl
                SrePatterns.re_match_empty) as [_ [K2 [_ [_ [_ K6]]]]].
  split; [|split; [|split]].
  - apply (H1 ["# a" ++ nl] []). reflexivity.
  - rewrite (H5 1 ("anything" ++ nl) eq_refl eq_refl).
    + reflexivity.
    + intros j l p Hj Hl Hp. destruct j as [|j]; [|lia].
      vm_compute in Hl, Hp. injection Hl as <-. injection Hp as <-.
      reflexivity.
  - apply (K2 [] []). reflexivity.
  - apply (K6 0 ("abc" ++ nl) eq_refl eq_refl).
    + intros j l p Hj. lia.
    + reflexivity.
Defined.



(** With its terminator the same pattern asks for the end of the line
    after the text, and the line that goes on is refused. *)
Example compare_trailing_terminated :
  compare fs_trailing_terminated Sre.re_match "actual.txt" "expected.swift" "# "
  = Some (Raises (AssertionError
            (msg_mismatch ("hello, world" ++ nl) ("hel+o" ++ nl)))).
Proof. vm_compute. reflexivity. Qed.

(* ================================================================= *)
(** ** The outcome of [compare], both ways *)

Section Verdict.

Variable fs : filesystem.
Variable re_match : string -> string -> option re_result.
Variables actual expected check_prefix : string.
Variables ca ce : string.
Hypothesis actual_opens : fs actual = Some ca.
Hypothesis expected_opens : fs expected = Some ce.

Let actual_lines : list string := readlines ca.
Let patterns : list string := expected_patterns check_prefix (readlines ce).

(** X1: [compare] returns normally exactly when the actual output has as
    many lines as there are annotated lines and every pattern matches
    its line: a normal return vouches for every line of the output. *)
Theorem compare_returns_iff :
  compare fs re_match actual expected check_prefix = Some Returns <->
  List.length actual_lines
  = List.length (annotated check_prefix (readlines ce)) /\
  all_pass re_match actual_lines patterns.
Proof.
  unfold actual_lines, patterns.
  rewrite (@compare_opened fs re_match actual expected check_prefix ca ce
             actual_opens expected_opens).
  rewrite <- expected_patterns_length. split.
  - apply check_pairs_returns_inv.
  - intros [Hl H]. apply check_pairs_all_pass; assumption.
Qed.

(** X2: [compare] raises the content diagnostic of a line and a pattern
    exactly when they stand at the same position of the two sequences,
    the pattern does not match the line there, and every earlier pair
    matches: the diagnostic never names a pair that was not compared. *)
Theorem compare_mismatch_iff (line pattern : string) :
  compare fs re_match actual expected check_prefix
  = Some (Raises (AssertionError (msg_mismatch line pattern))) <->
  exists i, first_failure re_match actual_lines patterns i line pattern MatchNone.
Proof.
  unfold actual_lines, patterns.
  rewrite (@compare_opened fs re_match actual expected check_prefix ca ce
             actual_opens expected_opens).
  split.
  - apply check_pairs_mismatch_inv.
  - intros [i Hi].
    rewrite (@check_pairs_at_first_failure re_match _ _ i line pattern
               MatchNone Hi); [reflexivity | discriminate].
Qed.

(** X3: [compare] raises the error for more lines expected exactly when
    the actual output is the shorter sequence and all of its lines match
    their patterns, and the error for more lines than expected exactly
    when the patterns are the shorter sequence and all of them match. *)
Theorem compare_length_errors_iff :
  (compare fs re_match actual expected check_prefix
   = Some (Raises (AssertionError msg_more_expected)) <->
   List.length actual_lines < List.length patterns /\
   all_pass re_match actual_lines patterns) /\
  (compare fs re_match actual expected check_prefix
   = Some (Raises (AssertionError msg_more_actual)) <->
   List.length patterns < List.length actual_lines /\
   all_pass re_match actual_lines patterns).
Proof.
  unfold actual_lines, patterns.
  rewrite (@compare_opened fs re_match actual expected check_prefix ca ce
             actual_opens expected_opens).
  split; split.
  - apply check_pairs_more_expected_inv.
  - intros [Hl H]. apply check_pairs_more_expected; assumption.
  - apply check_pairs_more_actual_inv.
  - intros [Hl H]. apply check_pairs_more_actual; assumption.
Qed.

(** X4: a pattern that does not compile makes [compare] raise the error
    of [re.match], not an [AssertionError], and does so exactly when that
    pattern is reached: every pair before it matches. *)
Theorem compare_pattern_error_iff :
  compare fs re_match actual expected check_prefix = Some (Raises ReError) <->
  exists i line pattern,
    first_failure re_match actual_lines patterns i line pattern MatchError.
Proof.
  unfold actual_lines, patterns.
  rewrite (@compare_opened fs re_match actual expected check_prefix ca ce
             actual_opens expected_opens).
  split.
  - apply check_pairs_error_inv.
  - intros [i [line [pattern Hi]]].
    rewrite (@check_pairs_at_first_failure re_match _ _ i line pattern
               MatchError Hi); [reflexivity | discriminate].
Qed.

End Verdict.

(* ================================================================= *)
(** ** Files that do not open, and what is read *)

Lemma compare_run_actual_unreadable (fs : filesystem)
    (re_match : string -> string -> option re_result)
    (actual expected check_prefix : string) :
  fs actual = None ->
  compare_run fs re_match actual expected check_prefix
  = Run (Some (Raises IOError))
        (Generator (ActualLines actual) (Exhausted 0))
        (_expected_lines expected check_prefix).
Proof.
  intros H. unfold compare_run, map_None. cbn [map_None_loop].
  unfold next at 1. simpl. rewrite H. reflexivity.
Qed.

Lemma compare_run_expected_unreadable (fs : filesystem)
    (re_match : string -> string -> option re_result)
    (actual expected check_prefix ca : string) :
  fs actual = Some ca -> fs expected = None ->
  compare_run fs re_match actual expected check_prefix
  = Run (Some (Raises IOError))
        (Generator (ActualLines actual)
           match readlines ca with
           | [] => Exhausted 0
           | _ :: rest => Suspended 1 rest
           end)
        (Generator (ExpectedLines expected check_prefix) (Exhausted 0)).
Proof.
  intros Ha He. unfold compare_run, map_None. cbn [map_None_loop].
  unfold next, _actual_lines, _expected_lines. cbn [state body gen_path].
  rewrite Ha, He. destruct (readlines ca); reflexivity.
Qed.

(** X5: [compare] raises the [IOError] of [open] exactly when one of the
    two files does not open; whatever the lines and patterns are, they
    never produce it, and they never hide it. *)
Theorem compare_ioerror_iff (fs : filesystem)
    (re_match : string -> string -> option re_result)
    (actual expected check_prefix : string) :
  compare fs re_match actual expected check_prefix = Some (Raises IOError) <->
  fs actual = None \/ fs expected = None.
Proof.
  split.
  - intros H. destruct (fs actual) as [ca|] eqn:Ha; [|left; reflexivity].
    destruct (fs expected) as [ce|] eqn:He; [|right; reflexivity].
    rewrite (@compare_opened fs re_match actual expected check_prefix ca ce
               Ha He) in H.
    apply check_pairs_no_ioerror in H. contradiction.
  - intros [H|H].
    + apply compare_actual_unreadable. exact H.
    + destruct (fs actual) as [ca|] eqn:Ha.
      * apply (@compare_expected_unreadable fs re_match actual expected
                 check_prefix ca Ha H).
      * apply compare_actual_unreadable. exact Ha.
Qed.

(** X6: the actual file is opened first.  When it does not open, the
    expectations file is not opened at all; when only the expectations
    file does not open, [compare] raises after one line of the actual
    file, if it has any, has been read. *)
Theorem compare_opens_actual_first (fs : filesystem)
    (re_match : string -> string -> option re_result)
    (actual expected check_prefix : string) :
  (fs actual = None ->
   expected_gen (compare_run fs re_match actual expected check_prefix)
   = _expected_lines expected check_prefix) /\
  (forall ca, fs actual = Some ca -> fs expected = None ->
   lines_read (actual_gen (compare_run fs re_match actual expected check_prefix))
   = Nat.min 1 (List.length (readlines ca)) /\
   lines_read (expected_gen (compare_run fs re_match actual expected check_prefix))
   = 0).
Proof.
  split.
  - intros H.
    rewrite (@compare_run_actual_unreadable fs re_match actual expected
               check_prefix H).
    reflexivity.
  - intros ca Ha He.
    rewrite (@compare_run_expected_unreadable fs re_match actual expected
               check_prefix ca Ha He).
    destruct (readlines ca); split; reflexivity.
Qed.

(** The loop of [_expected_lines] over lines without the prefix. *)
Lemma resume_expected_skips (b : gen_body) (pre : string)
    (skipped : list string) : forall (n : nat) (line : string) (rest : list string),
  Forall (fun l => startswith l pre = false) skipped ->
  startswith line pre = true ->
  resume_expected b pre n (skipped ++ line :: rest)
  = (Yield (slice_from (String.length pre) line),
     Generator b (Suspended (n + List.length skipped + 1) rest)).
Proof.
  induction skipped as [|l skipped IH]; intros n line rest Hs Hl; simpl.
  - rewrite Hl. replace (n + 0 + 1) with (S n) by lia. reflexivity.
  - inversion Hs as [|? ? H1 H2]; subst. rewrite H1.
    rewrite (IH (S n) line rest H2 Hl).
    replace (S n + List.length skipped + 1)
      with (n + S (List.length skipped) + 1) by lia.
    reflexivity.
Qed.

(** X7: the generators are lazy.  The first [next] of [_expected_lines]
    reads the lines without the prefix up to the first annotated line and
    that line, yields its remainder and leaves the rest of the file
    unread; when no line is annotated it reads the whole file and stops. *)
Theorem expected_lines_reads_on_demand (fs : filesystem)
    (path check_prefix ce : string) (skipped : list string) :
  fs path = Some ce ->
  Forall (fun l => startswith l check_prefix = false) skipped ->
  (forall line rest,
      readlines ce = (skipped ++ line :: rest)%list ->
      startswith line check_prefix = true ->
      next fs (_expected_lines path check_prefix)
      = (Yield (slice_from (String.length check_prefix) line),
         Generator (ExpectedLines path check_prefix)
           (Suspended (List.length skipped + 1) rest))) /\
  (readlines ce = skipped ->
   next fs (_expected_lines path check_prefix)
   = (StopIteration,
      Generator (ExpectedLines path check_prefix)
        (Exhausted (List.length skipped)))).
Proof.
  intros Hf Hs. unfold next, _expected_lines. cbn [state body gen_path resume].
  rewrite Hf. split.
  - intros line rest -> Hl. cbn [resume].
    rewrite (@resume_expected_skips _ check_prefix skipped 0 line rest Hs Hl).
    reflexivity.
  - intros ->. cbn [resume]. apply resume_expected_stop.
    unfold expected_patterns, annotated.
    induction Hs as [|l ls Hl _ IH]; simpl; [reflexivity|].
    rewrite Hl. exact IH.
Qed.

(** X8: lines of the expectations file that do not start with the check
    prefix have no part in the verdict: two expectations files with the
    same annotated lines, in the same order, give the same outcome. *)
Theorem compare_ignores_other_lines (fs : filesystem)
    (re_match : string -> string -> option re_result)
    (actual expected1 expected2 check_prefix ce1 ce2 : string) :
  fs expected1 = Some ce1 ->
  fs expected2 = Some ce2 ->
  annotated check_prefix (readlines ce1) = annotated check_prefix (readlines ce2) ->
  compare fs re_match actual expected1 check_prefix
  = compare fs re_match actual expected2 check_prefix.
Proof.
  intros H1 H2 Ha. destruct (fs actual) as [ca|] eqn:Hc.
  - rewrite (@compare_opened fs re_match actual expected1 check_prefix ca ce1
               Hc H1).
    rewrite (@compare_opened fs re_match actual expected2 check_prefix ca ce2
               Hc H2).
    unfold expected_patterns. rewrite Ha. reflexivity.
  - rewrite !compare_actual_unreadable by exact Hc. reflexivity.
Qed.

(** X9: with an empty side [re.match] is never called.  An empty actual
    file passes when no line is annotated and otherwise raises the error
    for more lines expected; an expectations file without annotated lines
    passes an empty actual file and otherwise raises the error for more
    lines than expected.  This holds for every engine, so also when the
    patterns would not compile. *)
Theorem compare_empty_side (fs : filesystem)
    (re_match : string -> string -> option re_result)
    (actual expected check_prefix ca ce : string) :
  fs actual = Some ca ->
  fs expected = Some ce ->
  (ca = "" ->
   compare fs re_match actual expected check_prefix
   = match annotated check_prefix (readlines ce) with
     | [] => Some Returns
     | _ :: _ => Some (Raises (AssertionError msg_more_expected))
     end) /\
  (annotated check_prefix (readlines ce) = [] ->
   compare fs re_match actual expected check_prefix
   = match ca with
     | EmptyString => Some Returns
     | String _ _ => Some (Raises (AssertionError msg_more_actual))
     end).
Proof.
  intros Ha He.
  rewrite (@compare_opened fs re_match actual expected check_prefix ca ce Ha He).
  unfold expected_patterns. split.
  - intros ->. simpl.
    destruct (annotated check_prefix (readlines ce)); reflexivity.
  - intros ->. simpl. destruct ca as [|c ca]; [reflexivity|].
    destruct (readlines (String c ca)) as [|l ls] eqn:E.
    + apply readlines_nil in E. discriminate E.
    + reflexivity.
Qed.

(* ================================================================= *)
(** ** build_script.py: paths and arguments *)

Module BuildScriptFacts.
Import BuildScript.

Lemma endswith_char_app (s t : string) (c : ascii) :
  t <> EmptyString -> endswith_char (s ++ t) c = endswith_char t c.
Proof.
  intros Ht. induction s as [|d s IH]; [reflexivity|].
  simpl. destruct (s ++ t) eqn:E; [|exact IH].
  destruct s; simpl in E; [contradiction | discriminate].
Qed.

Lemma append_not_empty (s t : string) : t <> EmptyString -> s ++ t <> EmptyString.
Proof. intros Ht. destruct s; [exact Ht | discriminate]. Qed.

(** Appending a component that is a plain word. *)
Lemma join_step_word (path b : string) :
  startswith b "/" = false ->
  b <> EmptyString -> endswith_char b "/" = false ->
  (path = EmptyString \/ endswith_char path "/" = true ->
   join_step path b = path ++ b) /\
  (path <> EmptyString -> endswith_char path "/" = false ->
   join_step path b = path ++ "/" ++ b) /\
  join_step path b <> EmptyString /\
  endswith_char (join_step path b) "/" = false.
Proof.
  intros Hs Hb He. unfold join_step. rewrite Hs.
  destruct (String.eqb_spec path EmptyString) as [->|Hp]; simpl.
  - repeat split; try reflexivity; try assumption.
    intros X. contradiction.
  - destruct (endswith_char path "/") eqn:Ep.
    + repeat split; try reflexivity.
      * intros _ X. discriminate X.
      * apply append_not_empty. exact Hb.
      * rewrite endswith_char_app by exact Hb. exact He.
    + repeat split; try reflexivity.
      * intros [X|X]; [contradiction | discriminate X].
      * apply append_not_empty. discriminate.
      * rewrite endswith_char_app by discriminate.
        change ("/" ++ b) with (String "/" b).
        destruct b as [|c b]; [contradiction|]. exact He.
Qed.

(** The directory that [_core_foundation_build_dir] names, in closed
    form. *)
Lemma core_foundation_build_dir_eq (d : string) :
  _core_foundation_build_dir d
  = (if String.eqb d EmptyString || endswith_char d "/" then d else d ++ "/")
    ++ "usr/lib/swift".
Proof.
  unfold _core_foundation_build_dir, os_path_join. cbn [fold_left].
  assert (W : forall b, b = "usr" \/ b = "lib" \/ b = "swift" ->
            startswith b "/" = false /\ b <> EmptyString /\
            endswith_char b "/" = false).
  { intros b [->|[->| ->]]; repeat split; discriminate. }
  destruct (W "usr" (or_introl eq_refl)) as [U1 [U2 U3]].
  destruct (W "lib" (or_intror (or_introl eq_refl))) as [L1 [L2 L3]].
  destruct (W "swift" (or_intror (or_intror eq_refl))) as [S1 [S2 S3]].
  destruct (join_step_word d U1 U2 U3) as [Ua [Ub [Uc Ud]]].
  destruct (join_step_word (join_step d "usr") L1 L2 L3) as [_ [Lb [Lc Ld]]].
  destruct (join_step_word (join_step (join_step d "usr") "lib") S1 S2 S3)
    as [_ [Sb _]].
  rewrite (Sb Lc Ld), (Lb Uc Ud).
  destruct (String.eqb_spec d EmptyString) as [->|Hd]; [reflexivity|].
  simpl orb. destruct (endswith_char d "/") eqn:E.
  - rewrite (Ua (or_intror eq_refl)), !append_assoc. reflexivity.
  - rewrite (Ub Hd eq_refl), !append_assoc. reflexivity.
Qed.

(** X10: [_core_foundation_build_dir] names the directory [usr/lib/swift]
    below the Foundation build directory; one slash at the end of the
    argument makes no difference, and the empty argument gives the
    relative path. *)
Theorem core_foundation_build_dir_below (d : string) :
  d <> EmptyString ->
  endswith_char d "/" = false ->
  _core_foundation_build_dir d = d ++ "/usr/lib/swift" /\
  _core_foundation_build_dir (d ++ "/") = _core_foundation_build_dir d /\
  _core_foundation_build_dir EmptyString = "usr/lib/swift".
Proof.
  intros Hd He. rewrite !core_foundation_build_dir_eq.
  apply String.eqb_neq in Hd. rewrite Hd, He.
  assert (E1 : String.eqb (d ++ "/") EmptyString = false).
  { apply String.eqb_neq. apply append_not_empty. discriminate. }
  assert (E2 : endswith_char (d ++ "/") "/" = true).
  { rewrite endswith_char_app by discriminate. reflexivity. }
  rewrite E1, E2. simpl. rewrite !append_assoc. repeat split; reflexivity.
Qed.

Lemma core_foundation_build_dir_below_witness :
  _core_foundation_build_dir "/build/foundation-linux-x86_64/Foundation"
  = "/build/foundation-linux-x86_64/Foundation/usr/lib/swift".
Proof.
  apply (core_foundation_build_dir_below
           (d := "/build/foundation-linux-x86_64/Foundation")).
  - discriminate.
  - reflexivity.
Defined.

Lemma names_subcommand_iff (args : list string) :
  names_subcommand args = true <->
  exists a, In a args /\ In a known_words.
Proof.
  unfold names_subcommand. rewrite existsb_exists. split.
  - intros [a [Ha H]]. apply existsb_exists in H. destruct H as [k [Hk E]].
    apply String.eqb_eq in E. subst k. exists a. split; assumption.
  - intros [a [Ha Hk]]. exists a. split; [exact Ha|].
    apply existsb_exists. exists a. split; [exact Hk | apply String.eqb_refl].
Qed.

(** X11: the argument list that [main] parses always names a subcommand
    or asks for help, in some position.  Arguments that do so already,
    such as the ones [_build] builds for the tests and the installation,
    are parsed as they are; to all others [build] is put in front, and
    doing it twice changes nothing. *)
Theorem main_arguments_name_subcommand (args : list string) :
  names_subcommand (main_arguments args) = true /\
  main_arguments (main_arguments args) = main_arguments args /\
  ((exists a, In a args /\ In a known_words) -> main_arguments args = args) /\
  ((forall a, In a args -> ~ In a known_words) ->
   main_arguments args = "build" :: args) /\
  (forall rest, main_arguments ("test" :: rest) = "test" :: rest) /\
  (forall rest, main_arguments ("install" :: rest) = "install" :: rest).
Proof.
  assert (H1 : names_subcommand (main_arguments args) = true).
  { unfold main_arguments. destruct (names_subcommand args) eqn:E;
      [exact E | reflexivity]. }
  split; [exact H1|]. split; [|split; [|split; [|split]]].
  - unfold main_arguments at 1. rewrite H1. reflexivity.
  - intros H. apply names_subcommand_iff in H. unfold main_arguments.
    rewrite H. reflexivity.
  - intros H. unfold main_arguments.
    destruct (names_subcommand args) eqn:E; [|reflexivity].
    apply names_subcommand_iff in E. destruct E as [a [Ha Hk]].
    exfalso. exact (H a Ha Hk).
  - reflexivity.
  - reflexivity.
Qed.

End BuildScriptFacts.

(* ================================================================= *)
(** ** build_script.py: what a run does *)

Module BuildScriptRuns.
Import BuildScript.
Local Open Scope list_scope.

Lemma all_succeeded_nil : all_succeeded [].
Proof. intros c status []. Qed.

Lemma all_succeeded_app (t1 t2 : list event) :
  all_succeeded t1 -> all_succeeded t2 -> all_succeeded (t1 ++ t2).
Proof.
  intros H1 H2 c status H. apply in_app_or in H.
  destruct H as [H|H]; [apply (H1 c) | apply (H2 c)]; exact H.
Qed.

Lemma all_succeeded_printed (line : string) : all_succeeded [Printed line].
Proof. intros c status [H|[]]. discriminate H. Qed.

Lemma all_succeeded_called (c : string) : all_succeeded [Called c 0%Z].
Proof. intros c' status [H|[]]. injection H as _ <-. reflexivity. Qed.

Lemma announced_app (t1 t2 : list event) :
  announced t1 -> announced t2 -> announced (t1 ++ t2).
Proof.
  induction 1 as [|line t _ IH|c status t _ IH]; intros H2; simpl.
  - exact H2.
  - constructor. apply IH. exact H2.
  - apply (AnnouncedRun c status). apply IH. exact H2.
Qed.

(** A result that fits its trace still does after events before it. *)
Lemma fail_fast_after (A : Type) (r : A + failure) (t1 t2 : list event) :
  all_succeeded t1 -> fail_fast r t2 -> fail_fast r (t1 ++ t2).
Proof.
  intros H1 H2. destruct r as [a|[status c|msg| |name]]; simpl in *;
    try (apply all_succeeded_app; assumption).
  destruct H2 as [t0 [-> [Hs H0]]]. exists (t1 ++ t0).
  split; [apply app_assoc|]. split; [exact Hs|].
  apply all_succeeded_app; assumption.
Qed.

Lemma fail_fast_other (A B : Type) (e : failure) (t : list event) :
  fail_fast (@inr A failure e) t -> fail_fast (@inr B failure e) t.
Proof. intros H. exact H. Qed.

Lemma fail_fast_value (A : Type) (a : A) (t : list event) :
  fail_fast (@inl A failure a) t -> all_succeeded t.
Proof. intros H. exact H. Qed.

Section Runs.

Variable World : Type.
Variable sh : string -> World -> Z * World.
Variable path_exists : World -> string -> bool.
Variable abspath : string -> string.
Variable glob : World -> string -> list string.
Variable SOURCE_DIR : string.

Lemma fails_fast_ret (A : Type) (a : A) : fails_fast (@ret World A a).
Proof. intros w. apply all_succeeded_nil. Qed.

Lemma fails_fast_bind (A B : Type) (c : script World A)
    (k : A -> script World B) :
  fails_fast c -> (forall a, fails_fast (k a)) -> fails_fast (bind c k).
Proof.
  intros Hc Hk w. specialize (Hc w). unfold bind, result_of, trace_of in *.
  destruct (c w) as [[[a|e] w1] t1]; simpl in Hc.
  - specialize (Hk a w1). unfold result_of, trace_of in Hk.
    destruct (k a w1) as [[r w2] t2]. simpl in *.
    apply fail_fast_after; assumption.
  - simpl. exact Hc.
Qed.

Lemma fails_fast_note (msg : string) : fails_fast (@note World msg).
Proof. intros w. apply all_succeeded_printed. Qed.

Lemma fails_fast_check_call (c : string) : fails_fast (check_call sh c).
Proof.
  intros w. unfold check_call, result_of, trace_of.
  destruct (sh c w) as [status w']. simpl.
  destruct (Z.eqb_spec status 0) as [->|Hs]; simpl.
  - apply all_succeeded_called.
  - exists []. split; [reflexivity|]. split; [exact Hs | apply all_succeeded_nil].
Qed.

Lemma fails_fast_run (c : string) : fails_fast (run sh c).
Proof.
  apply fails_fast_bind; [apply fails_fast_note|].
  intros _. apply fails_fast_check_call.
Qed.

Lemma fails_fast_mkdirp (path : string) :
  fails_fast (_mkdirp sh path_exists path).
Proof.
  intros w. unfold _mkdirp. destruct (path_exists w path); simpl.
  - apply all_succeeded_nil.
  - apply fails_fast_run.
Qed.

Lemma fails_fast_abspath (path : option string) :
  fails_fast (@os_path_abspath World abspath path).
Proof. intros w. destruct path; apply all_succeeded_nil. Qed.

Lemma fails_fast_install (args : InstallArgs.t) :
  fails_fast (_install sh path_exists abspath args).
Proof.
  unfold _install. cbv zeta.
  repeat first
    [ apply fails_fast_run | apply fails_fast_abspath | apply fails_fast_mkdirp
    | apply fails_fast_bind; [|intros ?] ].
Qed.

Lemma fails_fast_test (args : TestArgs.t) :
  fails_fast (_test sh path_exists abspath SOURCE_DIR args).
Proof.
  intros w. unfold _test. destruct (path_exists w _); simpl.
  - apply fails_fast_run.
  - apply all_succeeded_nil.
Qed.

Lemma fails_fast_build (main : list string -> script World unit)
    (args : BuildArgs.t) :
  (forall a, fails_fast (main a)) ->
  fails_fast (_build sh path_exists abspath glob SOURCE_DIR main args).
Proof.
  intros Hm. unfold _build.
  apply fails_fast_bind; [apply fails_fast_mkdirp | intros _].
  apply fails_fast_bind; [intros w; apply all_succeeded_nil | intros sources].
  apply fails_fast_bind; [apply fails_fast_run | intros _].
  apply fails_fast_bind; [apply fails_fast_run | intros _].
  apply fails_fast_bind;
    [destruct (BuildArgs.test args); [apply Hm | apply fails_fast_ret]
    | intros _].
  apply fails_fast_bind; [|intros _; apply fails_fast_note].
  destruct (BuildArgs.module_path args), (BuildArgs.lib_path args);
    try apply fails_fast_ret. apply Hm.
Qed.

Lemma announces_ret (A : Type) (a : A) : announces (@ret World A a).
Proof. intros w. constructor. Qed.

Lemma announces_bind (A B : Type) (c : script World A)
    (k : A -> script World B) :
  announces c -> (forall a, announces (k a)) -> announces (bind c k).
Proof.
  intros Hc Hk w. specialize (Hc w). unfold bind, trace_of in *.
  destruct (c w) as [[[a|e] w1] t1]; simpl in Hc.
  - specialize (Hk a w1). unfold trace_of in Hk.
    destruct (k a w1) as [[r w2] t2]. simpl in *.
    apply announced_app; assumption.
  - simpl. exact Hc.
Qed.

Lemma announces_run (c : string) : announces (run sh c).
Proof.
  intros w. unfold run, bind, note, check_call, trace_of.
  destruct (sh c w) as [status w']. simpl.
  apply (@AnnouncedRun c status []). constructor.
Qed.

Lemma announces_mkdirp (path : string) :
  announces (_mkdirp sh path_exists path).
Proof.
  intros w. unfold _mkdirp. destruct (path_exists w path); simpl.
  - constructor.
  - apply announces_run.
Qed.

Lemma announces_abspath (path : option string) :
  announces (@os_path_abspath World abspath path).
Proof. intros w. destruct path; constructor. Qed.

Lemma announces_install (args : InstallArgs.t) :
  announces (_install sh path_exists abspath args).
Proof.
  unfold _install. cbv zeta.
  repeat first
    [ apply announces_run | apply announces_abspath | apply announces_mkdirp
    | apply announces_bind; [|intros ?] ].
Qed.

Lemma announces_test (args : TestArgs.t) :
  announces (_test sh path_exists abspath SOURCE_DIR args).
Proof.
  intros w. unfold _test. destruct (path_exists w _); simpl.
  - apply announces_run.
  - constructor.
Qed.

Lemma announces_build (main : list string -> script World unit)
    (args : BuildArgs.t) :
  (forall a, announces (main a)) ->
  announces (_build sh path_exists abspath glob SOURCE_DIR main args).
Proof.
  intros Hm. unfold _build.
  apply announces_bind; [apply announces_mkdirp | intros _].
  apply announces_bind; [intros w; constructor | intros sources].
  apply announces_bind; [apply announces_run | intros _].
  apply announces_bind; [apply announces_run | intros _].
  apply announces_bind;
    [destruct (BuildArgs.test args); [apply Hm | apply announces_ret]
    | intros _].
  apply announces_bind;
    [|intros _; intros w; apply AnnouncedPrinted; constructor].
  destruct (BuildArgs.module_path args), (BuildArgs.lib_path args);
    try apply announces_ret. apply Hm.
Qed.

(** X12: no command is run after a command that failed.  In every run of
    [_mkdirp], [_install], [_test] and [_build], whatever the shell
    does, every command but the last exited with status 0; the run
    raises [CalledProcessError] exactly when its last command did not,
    naming that command and its status.  For [_build] this holds as long
    as the entry point it calls back does the same. *)
Theorem commands_stop_at_first_failure :
  (forall path, fails_fast (_mkdirp sh path_exists path)) /\
  (forall args, fails_fast (_install sh path_exists abspath args)) /\
  (forall args, fails_fast (_test sh path_exists abspath SOURCE_DIR args)) /\
  (forall main args,
      (forall a, fails_fast (main a)) ->
      fails_fast (_build sh path_exists abspath glob SOURCE_DIR main args)).
Proof.
  split; [exact fails_fast_mkdirp|].
  split; [exact fails_fast_install|].
  split; [exact fails_fast_test | exact fails_fast_build].
Qed.

(** X13: every command is announced.  In every run of [_mkdirp],
    [_install], [_test] and [_build] each command handed to the shell
    comes right after the line [xctest-build: ] followed by that
    command. *)
Theorem commands_are_announced :
  (forall path, announces (_mkdirp sh path_exists path)) /\
  (forall args, announces (_install sh path_exists abspath args)) /\
  (forall args, announces (_test sh path_exists abspath SOURCE_DIR args)) /\
  (forall main args,
      (forall a, announces (main a)) ->
      announces (_build sh path_exists abspath glob SOURCE_DIR main args)).
Proof.
  split; [exact announces_mkdirp|].
  split; [exact announces_install|].
  split; [exact announces_test | exact announces_build].
Qed.

Lemma bind_ret (A B : Type) (a : A) (k : A -> script World B) (w : World) :
  bind (@ret World A a) k w = k a w.
Proof.
  unfold bind, ret. destruct (k a w) as [[r w2] t2]. reflexivity.
Qed.

Lemma bind_raise (A B : Type) (e : failure) (k : A -> script World B)
    (w : World) :
  bind (@raise World A e) k w = (inr e, w, []).
Proof. reflexivity. Qed.

(** A [bind] that gives a value: both parts did, one after the other. *)
Lemma bind_value (A B : Type) (c : script World A) (k : A -> script World B)
    (w : World) (b : B) :
  result_of (bind c k w) = inl b ->
  exists a, result_of (c w) = inl a /\
            result_of (k a (world_of (c w))) = inl b /\
            trace_of (bind c k w)
            = trace_of (c w) ++ trace_of (k a (world_of (c w))).
Proof.
  unfold bind, result_of, world_of, trace_of.
  destruct (c w) as [[[a|e] w1] t1]; simpl; [|discriminate].
  destruct (k a w1) as [[r w2] t2] eqn:E. simpl. intros ->.
  exists a. rewrite E. repeat split.
Qed.

(** A [bind] whose first part raises. *)
Lemma bind_failure (A B : Type) (c : script World A)
    (k : A -> script World B) (w : World) (e : failure) :
  result_of (c w) = inr e -> bind c k w = (inr e, world_of (c w), trace_of (c w)).
Proof.
  unfold bind, result_of, world_of, trace_of.
  destruct (c w) as [[[a|e'] w1] t1]; simpl; [discriminate|].
  intros H. injection H as ->. reflexivity.
Qed.

Lemma run_value (c : string) (w : World) :
  result_of (run sh c w) = inl tt ->
  trace_of (run sh c w) = run_events c 0.
Proof.
  unfold run, bind, note, check_call, result_of, trace_of, run_events.
  destruct (sh c w) as [status w']. simpl.
  destruct (Z.eqb_spec status 0) as [->|Hs]; [reflexivity | discriminate].
Qed.

Lemma run_trace (c : string) (w : World) :
  trace_of (run sh c w) = run_events c (fst (sh c w)) /\
  result_of (run sh c w)
  = if Z.eqb (fst (sh c w)) 0 then inl tt
    else inr (CalledProcessError (fst (sh c w)) c).
Proof.
  unfold run, bind, note, check_call, result_of, trace_of, run_events.
  destruct (sh c w) as [status w']. simpl. split; reflexivity.
Qed.

Lemma mkdirp_value (path : string) (w : World) :
  result_of (_mkdirp sh path_exists path w) = inl tt ->
  (path_exists w path = true /\
   trace_of (_mkdirp sh path_exists path w) = [] /\
   world_of (_mkdirp sh path_exists path w) = w) \/
  (path_exists w path = false /\
   trace_of (_mkdirp sh path_exists path w)
   = run_events ("mkdir -p " ++ path) 0).
Proof.
  unfold _mkdirp. destruct (path_exists w path); simpl.
  - intros _. left. repeat split; reflexivity.
  - intros H. right. split; [reflexivity | apply run_value; exact H].
Qed.

(** X14: [_install] needs both install paths.  When the module path or
    the library path was not given, it raises [AttributeError] before it
    prints a line or runs a command, and leaves the world as it was. *)
Theorem install_without_path (args : InstallArgs.t) (w : World) :
  InstallArgs.module_install_path args = None \/
  InstallArgs.library_install_path args = None ->
  _install sh path_exists abspath args w = (inr AttributeError, w, []).
Proof.
  unfold _install.
  destruct (InstallArgs.module_install_path args) as [m|];
    destruct (InstallArgs.library_install_path args) as [l|];
    intros [H|H]; try discriminate H; reflexivity.
Qed.

(** X15: an installation that returns has copied the three products, in
    this order: the library into the library path, the module and its
    documentation into the module path, each command with status 0.
    Before them it ran nothing but [mkdir -p] for the two install
    directories, and nothing at all when both existed. *)
Theorem install_copies_products (args : InstallArgs.t) (w : World)
    (m l : string) :
  InstallArgs.module_install_path args = Some m ->
  InstallArgs.library_install_path args = Some l ->
  result_of (_install sh path_exists abspath args w) = inl tt ->
  let B := abspath (InstallArgs.build_dir args) in
  let M := abspath m in
  let L := abspath l in
  exists t0,
    trace_of (_install sh path_exists abspath args w)
    = t0
      ++ run_events ("cp " ++ os_path_join B ["libXCTest.so"] ++ " " ++
                     os_path_join L ["libXCTest.so"]) 0
      ++ run_events ("cp " ++ os_path_join B ["XCTest.swiftmodule"] ++ " " ++
                     os_path_join M ["XCTest.swiftmodule"]) 0
      ++ run_events ("cp " ++ os_path_join B ["XCTest.swiftdoc"] ++ " " ++
                     os_path_join M ["XCTest.swiftdoc"]) 0 /\
    Forall (fun c => c = ("mkdir -p " ++ M)%string \/ c = ("mkdir -p " ++ L)%string)
      (commands t0) /\
    (path_exists w M = true -> path_exists w L = true -> t0 = []).
Proof.
  intros Hm Hl. unfold _install. rewrite Hm, Hl. cbv zeta.
  unfold os_path_abspath. rewrite !bind_ret. intros H.
  apply bind_value in H. destruct H as [[] [H1 [H T1]]]. rewrite T1.
  apply bind_value in H. destruct H as [[] [H2 [H T2]]]. rewrite T2.
  apply bind_value in H. destruct H as [[] [H3 [H T3]]]. rewrite T3.
  apply bind_value in H. destruct H as [[] [H4 [H T4]]]. rewrite T4.
  rewrite (run_value _ _ H3), (run_value _ _ H4), (run_value _ _ H).
  set (t1 := trace_of (_mkdirp sh path_exists (abspath m) w)).
  set (w1 := world_of (_mkdirp sh path_exists (abspath m) w)).
  set (t2 := trace_of (_mkdirp sh path_exists (abspath l) w1)).
  exists (t1 ++ t2). split; [rewrite <- !app_assoc; reflexivity|].
  apply mkdirp_value in H1. apply mkdirp_value in H2.
  fold t1 w1 in H1, H2. fold t2 in H2. clear T1 T2 T3 T4 H3 H4 H.
  split.
  - destruct H1 as [[_ [E1 _]]|[_ E1]]; destruct H2 as [[_ [E2 _]]|[_ E2]];
      rewrite E1, E2; simpl; repeat apply Forall_cons;
      try apply Forall_nil; auto.
  - intros EM EL. destruct H1 as [[_ [E1 Ew]]|[X _]]; [|congruence].
    destruct H2 as [[_ [E2 _]]|[X _]]; [|rewrite Ew in X; congruence].
    rewrite E1, E2. reflexivity.
Qed.

Lemma startswith_app3 (a b c r : string) :
  startswith (a ++ b ++ c ++ r) (a ++ b ++ c) = true.
Proof.
  rewrite <- (append_assoc b c r), <- (append_assoc a (b ++ c) r).
  apply startswith_app.
Qed.

(** X16: [_test] looks for the lit tool first.  When it is missing it
    raises the [IOError] that names the path, before it prints a line or
    runs a command; when it is there, it runs one command, the test
    command, and raises [CalledProcessError] exactly when that command
    exits with another status than 0. *)
Theorem test_needs_lit (args : TestArgs.t) (w : World) :
  let lit_path := abspath (TestArgs.lit args) in
  (path_exists w lit_path = false ->
   _test sh path_exists abspath SOURCE_DIR args w
   = (inr (IOError (lit_not_found lit_path)), w, [])) /\
  (path_exists w lit_path = true ->
   exists command status,
     trace_of (_test sh path_exists abspath SOURCE_DIR args w)
     = run_events command status /\
     startswith command ("SWIFT_EXEC=" ++ TestArgs.swiftc args ++ " ") = true /\
     result_of (_test sh path_exists abspath SOURCE_DIR args w)
     = if Z.eqb status 0 then inl tt
       else inr (CalledProcessError status command)).
Proof.
  cbv zeta. unfold _test. split; intros H; rewrite H; simpl negb; cbv iota.
  - reflexivity.
  - eexists. eexists. split; [apply run_trace|]. split; [|apply run_trace].
    unfold test_command. apply startswith_app3.
Qed.

Lemma bind_ext (A B : Type) (c : script World A) (k k' : A -> script World B)
    (w : World) :
  (forall a w1, k a w1 = k' a w1) -> bind c k w = bind c k' w.
Proof.
  intros H. unfold bind. destruct (c w) as [[[a|e] w1] t1]; [|reflexivity].
  rewrite H. reflexivity.
Qed.

Lemma bind_ext_first (A B : Type) (c c' : script World A)
    (k : A -> script World B) (w : World) :
  c w = c' w -> bind c k w = bind c' k w.
Proof. intros H. unfold bind. rewrite H. reflexivity. Qed.

(** X17: [_build] calls the entry point back only when asked to.  Its
    run depends on what the entry point does with the arguments of the
    test subcommand only when [--test] was given, and on what it does
    with those of the install subcommand only when both install paths
    were given: with only one of the two paths nothing is installed. *)
Theorem build_calls_back_when_asked (main main' : list string -> script World unit)
    (args : BuildArgs.t) (w : World) :
  (BuildArgs.test args = true ->
   forall a w', main ("test" :: a) w' = main' ("test" :: a) w') ->
  (BuildArgs.module_path args <> None -> BuildArgs.lib_path args <> None ->
   forall a w', main ("install" :: a) w' = main' ("install" :: a) w') ->
  _build sh path_exists abspath glob SOURCE_DIR main args w
  = _build sh path_exists abspath glob SOURCE_DIR main' args w.
Proof.
  intros Ht Hi. unfold _build. cbv zeta.
  apply bind_ext. intros _ w1. apply bind_ext. intros sources w2.
  apply bind_ext. intros _ w3. apply bind_ext. intros _ w4.
  transitivity
    (bind (if BuildArgs.test args
           then main' ["test"; "--swiftc"; abspath (BuildArgs.swiftc args);
                       "--foundation-build-dir";
                       abspath (BuildArgs.foundation_build_dir args);
                       abspath (BuildArgs.build_dir args)]
           else @ret World unit tt)
       (fun _ =>
          bind match BuildArgs.module_path args, BuildArgs.lib_path args with
               | Some module_path, Some lib_path =>
                   main ["install"; abspath (BuildArgs.build_dir args);
                         "--module-install-path"; module_path;
                         "--library-install-path"; lib_path]
               | _, _ => @ret World unit tt
               end
            (fun _ => @note World "Done.")) w4).
  - apply bind_ext_first. destruct (BuildArgs.test args); [|reflexivity].
    apply Ht. reflexivity.
  - apply bind_ext. intros _ w5. apply bind_ext_first.
    destruct (BuildArgs.module_path args) as [m|]; [|reflexivity].
    destruct (BuildArgs.lib_path args) as [l|]; [|reflexivity].
    apply Hi; discriminate.
Qed.

(** X18: a build that returns has, after at most a [mkdir -p] of the
    build directory, run the compile command and then the link command,
    both with status 0, and has printed [Done.] as its last line; without
    [--test] and without both install paths nothing happens in
    between. *)
Theorem build_compiles_then_links (main : list string -> script World unit)
    (args : BuildArgs.t) (w : World) :
  result_of (_build sh path_exists abspath glob SOURCE_DIR main args w) = inl tt ->
  let swiftc := abspath (BuildArgs.swiftc args) in
  let build_dir := abspath (BuildArgs.build_dir args) in
  let foundation_build_dir := abspath (BuildArgs.foundation_build_dir args) in
  let style_options :=
    if String.eqb (BuildArgs.build_style args) "debug" then "-g" else "-O" in
  exists t_mkdir sources t_back,
    trace_of (_build sh path_exists abspath glob SOURCE_DIR main args w)
    = t_mkdir
      ++ run_events
           (compile_command swiftc style_options build_dir foundation_build_dir
              (_core_foundation_build_dir foundation_build_dir)
              (String.concat " " sources)) 0
      ++ run_events (link_command swiftc build_dir foundation_build_dir) 0
      ++ t_back ++ [Printed "xctest-build: Done."] /\
    (t_mkdir = [] \/ t_mkdir = run_events ("mkdir -p " ++ build_dir) 0) /\
    (BuildArgs.test args = false ->
     BuildArgs.module_path args = None \/ BuildArgs.lib_path args = None ->
     t_back = []).
Proof.
  unfold _build. cbv zeta. intros H.
  apply bind_value in H. destruct H as [[] [H1 [H T1]]]. rewrite T1.
  set (w1 := world_of (_mkdirp sh path_exists
                         (abspath (BuildArgs.build_dir args)) w)) in *.
  apply bind_value in H. destruct H as [sources [H2 [H T2]]]. rewrite T2.
  unfold os_glob in H2 at 1. unfold result_of in H2 at 1. simpl in H2.
  injection H2 as <-.
  change (world_of (os_glob glob _ w1)) with w1 in *.
  change (trace_of (os_glob glob _ w1)) with (@nil event).
  apply bind_value in H. destruct H as [[] [H3 [H T3]]]. rewrite T3.
  apply bind_value in H. destruct H as [[] [H4 [H T4]]]. rewrite T4.
  apply bind_value in H. destruct H as [[] [H5 [H T5]]]. rewrite T5.
  apply bind_value in H. destruct H as [[] [H6 [H T6]]]. rewrite T6.
  rewrite (run_value _ _ H3), (run_value _ _ H4).
  clear T1 T2 T3 T4 T5 T6.
  match goal with
  | |- context [trace_of (?c5 ?w5) ++ trace_of (?c6 ?w6) ++ trace_of (note _ _)] =>
      set (t5 := trace_of (c5 w5)) in *; set (t6 := trace_of (c6 w6)) in *
  end.
  exists (trace_of (_mkdirp sh path_exists (abspath (BuildArgs.build_dir args)) w)),
    (glob w1 (os_path_join SOURCE_DIR ["Sources"; "XCTest"; "*.swift"])),
    (t5 ++ t6).
  split; [|split].
  - simpl. rewrite <- !app_assoc. reflexivity.
  - apply mkdirp_value in H1. destruct H1 as [[_ [E _]]|[_ E]]; auto.
  - intros Ht Hp. unfold t5, t6. rewrite Ht.
    destruct Hp as [Hp|Hp]; rewrite Hp;
      [|destruct (BuildArgs.module_path args)]; reflexivity.
Qed.

End Runs.

End BuildScriptRuns.

(* ================================================================= *)
(** ** Termination *)

(** X19: [compare] comes to an end on every input, whether the files
    open or not and however long they are: as soon as every call of
    [re.match] answers, [compare] returns or raises. *)
Theorem compare_has_outcome (fs : filesystem)
    (re_match : string -> string -> option re_result)
    (actual expected check_prefix : string) :
  (forall pattern line, re_match pattern line <> None) ->
  exists o, compare fs re_match actual expected check_prefix = Some o.
Proof.
  intros Ht.
  destruct (compare fs re_match actual expected check_prefix) as [o|] eqn:E.
  - exists o. reflexivity.
  - exfalso.
    exact (@compare_defined fs re_match actual expected check_prefix Ht E).
Qed.

(* ================================================================= *)
(** ** Further runs on concrete files *)

Lemma compare_returns_iff_witness :
  List.length (readlines (text ["hello"; "world"]))
  = List.length
      (annotated "// CHECK: "
         (readlines (text ["// CHECK: hel+o"; "print(1)"; "// CHECK: w.rld"]))) /\
  all_pass Sre.re_match (readlines (text ["hello"; "world"]))
    (expected_patterns "// CHECK: "
       (readlines (text ["// CHECK: hel+o"; "print(1)"; "// CHECK: w.rld"]))).
Proof.
  apply (proj1 (@compare_returns_iff fs_pass Sre.re_match "actual.txt"
                  "expected.swift" "// CHECK: " (text ["hello"; "world"])
                  (text ["// CHECK: hel+o"; "print(1)"; "// CHECK: w.rld"])
                  eq_refl eq_refl)).
  vm_compute. reflexivity.
Defined.

Lemma compare_mismatch_iff_witness :
  exists i,
    first_failure Sre.re_match (readlines (text ["hello"; "foo"; "baz"]))
      (expected_patterns "# " (readlines (text ["# hello"; "# bar"; "# qux"])))
      i ("foo" ++ nl) ("bar" ++ nl) MatchNone.
Proof.
  apply (proj1 (@compare_mismatch_iff fs_mismatch Sre.re_match "actual.txt"
                  "expected.swift" "# " (text ["hello"; "foo"; "baz"])
                  (text ["# hello"; "# bar"; "# qux"]) eq_refl eq_refl
                  ("foo" ++ nl) ("bar" ++ nl))).
  vm_compute. reflexivity.
Defined.

Lemma compare_length_errors_iff_witness :
  List.length (readlines (text ["hello"]))
  < List.length (expected_patterns "# " (readlines (text ["# hello"; "# extra"]))) /\
  all_pass Sre.re_match (readlines (text ["hello"]))
    (expected_patterns "# " (readlines (text ["# hello"; "# extra"]))).
Proof.
  apply (proj1 (proj1 (@compare_length_errors_iff fs_short Sre.re_match
                  "actual.txt" "expected.swift" "# " (text ["hello"])
                  (text ["# hello"; "# extra"]) eq_refl eq_refl))).
  vm_compute. reflexivity.
Defined.

Lemma compare_pattern_error_iff_witness :
  exists i line pattern,
    first_failure Sre.re_match (readlines (text ["hello"; "x"]))
      (expected_patterns "# " (readlines (text ["# hello"; "# (x"])))
      i line pattern MatchError.
Proof.
  apply (proj1 (@compare_pattern_error_iff fs_bad_pattern Sre.re_match
                  "actual.txt" "expected.swift" "# " (text ["hello"; "x"])
                  (text ["# hello"; "# (x"]) eq_refl eq_refl)).
  vm_compute. reflexivity.
Defined.

Lemma expected_lines_reads_on_demand_witness :
  next fs_pass (_expected_lines "expected.swift" "print")
  = (Yield ("(1)" ++ nl),
     Generator (ExpectedLines "expected.swift" "print")
       (Suspended 2 ["// CHECK: w.rld" ++ nl])).
Proof.
  refine (proj1 (@expected_lines_reads_on_demand fs_pass "expected.swift"
                   "print"
                   (text ["// CHECK: hel+o"; "print(1)"; "// CHECK: w.rld"])
                   ["// CHECK: hel+o" ++ nl] _ _)
            ("print(1)" ++ nl) ["// CHECK: w.rld" ++ nl] _ _).
  - reflexivity.
  - repeat constructor.
  - reflexivity.
  - reflexivity.
Defined.

Lemma compare_ignores_other_lines_witness :
  compare fs_stripped Sre.re_match "actual.txt" "expected.swift" "// CHECK: "
  = compare fs_stripped Sre.re_match "actual.txt" "stripped.swift" "// CHECK: ".
Proof.
  apply (@compare_ignores_other_lines fs_stripped Sre.re_match "actual.txt"
           "expected.swift" "stripped.swift" "// CHECK: "
           (text ["// CHECK: hel+o"; "print(1)"; "// CHECK: w.rld"])
           (text ["// CHECK: hel+o"; "// CHECK: w.rld"])).
  - reflexivity.
  - reflexivity.
  - reflexivity.
Defined.

Lemma compare_empty_side_witness :
  compare fs_empty_actual Sre.re_match "actual.txt" "expected.swift" "# "
  = Some (Raises (AssertionError msg_more_expected)).
Proof.
  apply (proj1 (@compare_empty_side fs_empty_actual Sre.re_match "actual.txt"
                  "expected.swift" "# " EmptyString (text ["# (x"])
                  eq_refl eq_refl)).
  reflexivity.
Defined.

Lemma compare_has_outcome_witness :
  exists o,
    compare fs_bad_pattern plain_match "actual.txt" "expected.swift" "# "
    = Some o.
Proof.
  apply (@compare_has_outcome fs_bad_pattern plain_match).
  intros pattern line. discriminate.
Defined.

Lemma install_without_path_witness :
  BuildScript._install BuildScript.toy_sh BuildScript.toy_exists
    BuildScript.toy_abspath
    (BuildScript.InstallArgs.Make "out" None (Some "/l")) []
  = (inr BuildScript.AttributeError, [], []).
Proof.
  apply BuildScriptRuns.install_without_path. left. reflexivity.
Defined.

Lemma install_copies_products_witness :
  exists t0,
    BuildScript.trace_of
      (BuildScript._install BuildScript.toy_sh BuildScript.toy_exists
         BuildScript.toy_abspath BuildScript.toy_install_args [])
    = (t0
       ++ BuildScript.run_events "cp /out/libXCTest.so /l/libXCTest.so" 0
       ++ BuildScript.run_events
            "cp /out/XCTest.swiftmodule /m/XCTest.swiftmodule" 0
       ++ BuildScript.run_events
            "cp /out/XCTest.swiftdoc /m/XCTest.swiftdoc" 0)%list /\
    Forall (fun c => c = "mkdir -p /m" \/ c = "mkdir -p /l")
      (BuildScript.commands t0) /\
    (BuildScript.toy_exists [] "/m" = true ->
     BuildScript.toy_exists [] "/l" = true -> t0 = []).
Proof.
  exact (@BuildScriptRuns.install_copies_products (list string)
           BuildScript.toy_sh BuildScript.toy_exists BuildScript.toy_abspath
           BuildScript.toy_install_args [] "/m" "/l" eq_refl eq_refl eq_refl).
Defined.

Lemma build_calls_back_when_asked_witness :
  BuildScript._build BuildScript.toy_sh BuildScript.toy_exists
    BuildScript.toy_abspath BuildScript.toy_glob "/src"
    BuildScript.toy_main BuildScript.toy_build_args []
  = BuildScript._build BuildScript.toy_sh BuildScript.toy_exists
      BuildScript.toy_abspath BuildScript.toy_glob "/src"
      BuildScript.toy_main_fails BuildScript.toy_build_args [].
Proof.
  apply BuildScriptRuns.build_calls_back_when_asked.
  - intros H. discriminate H.
  - intros H. exfalso. apply H. reflexivity.
Defined.

Lemma build_compiles_then_links_witness :
  exists t_mkdir sources t_back,
    BuildScript.trace_of
      (BuildScript._build BuildScript.toy_sh BuildScript.toy_exists
         BuildScript.toy_abspath BuildScript.toy_glob "/src"
         BuildScript.toy_main BuildScript.toy_build_args [])
    = (t_mkdir
       ++ BuildScript.run_events
            (BuildScript.compile_command "/bin/swiftc" "-O" "/work/out" "/f"
               "/f/usr/lib/swift" (String.concat " " sources)) 0
       ++ BuildScript.run_events
            (BuildScript.link_command "/bin/swiftc" "/work/out" "/f") 0
       ++ t_back ++ [BuildScript.Printed "xctest-build: Done."])%list /\
    (t_mkdir = [] \/
     t_mkdir = BuildScript.run_events "mkdir -p /work/out" 0) /\
    (false = false -> @None string = None \/ Some "/l" = None -> t_back = []).
Proof.
  exact (@BuildScriptRuns.build_compiles_then_links (list string)
           BuildScript.toy_sh BuildScript.toy_exists BuildScript.toy_abspath
           BuildScript.toy_glob "/src" BuildScript.toy_main
           BuildScript.toy_build_args [] eq_refl).
Defined.
